(** * merge-alert: the seen-PR store of [pr_tracker.py]

    A shallow embedding of [PRTracker] (src/pr_tracker.py): the in-memory
    set [seen_prs], the backing file and its temporary sibling, and the
    methods [load_seen_prs], [save_seen_prs], [has_seen_pr],
    [mark_pr_as_seen], [get_seen_count] and [cleanup_old_entries].

    Python exceptions are explicit results, the two files and the set are
    an explicit state, and the clock readings and I/O faults of a call are
    arguments of the call. *)

From stdpp Require Import base gmap sets list strings.
From Stdlib Require Import ZArith Lia.

#[local] Set Warnings "-register-all,-clear-no-such-hyp".
Local Open Scope Z_scope.

(** ** Python values *)

(** A Python [str].  [Stamp t] is ISO-8601 text that
    [datetime.fromisoformat(s.replace('Z', '+00:00')).replace(tzinfo=None)]
    reads as the naive datetime [t]; this is in particular the text
    [utcnow().isoformat() + 'Z'] written for the clock reading [t].
    [Text s] is any text that [fromisoformat] rejects with [ValueError].
    Datetimes are counted in microseconds from 1970-01-01T00:00:00. *)
Inductive pystr :=
| Text (s : string)
| Stamp (t : Z).

(** What [json.load] returns: [None], [bool], [int], [str], [list] and
    [dict] (the items of a dict, keys distinct).  Non-integral numbers
    are not modelled. *)
Inductive json :=
| JNull
| JBool (b : bool)
| JInt (n : Z)
| JStr (s : pystr)
| JArr (l : list json)
| JObj (kv : list (string * json)).

(** The exceptions the methods can meet; each is an [Exception]. *)
Inductive exn :=
| OSError
| JSONDecodeError
| AttributeError
| TypeError
| KeyError
| OverflowError.

Inductive result (A : Type) :=
| Ok (a : A)
| Raise (e : exn).
Arguments Ok {A} a.
Arguments Raise {A} e.

(** Elements of a Python [set] reached by the code: hashable JSON
    scalars.  [True] and [False] hash and compare as [1] and [0], so a
    set holds them as the same element. *)
Inductive key :=
| KNone
| KInt (n : Z)
| KStr (s : pystr).

#[global] Instance pystr_eq_dec : EqDecision pystr.
Proof. solve_decision. Defined.

#[global] Instance key_eq_dec : EqDecision key.
Proof. solve_decision. Defined.

Definition pystr_code (s : pystr) : string + Z :=
  match s with Text x => inl x | Stamp t => inr t end.

Definition pystr_decode (c : string + Z) : pystr :=
  match c with inl x => Text x | inr t => Stamp t end.

#[global] Instance pystr_countable : Countable pystr.
Proof. apply (inj_countable' pystr_code pystr_decode). by intros []. Defined.

Definition key_code (k : key) : unit + (Z + pystr) :=
  match k with KNone => inl tt | KInt n => inr (inl n) | KStr s => inr (inr s) end.

Definition key_decode (c : unit + (Z + pystr)) : key :=
  match c with inl _ => KNone | inr (inl n) => KInt n | inr (inr s) => KStr s end.

#[global] Instance key_countable : Countable key.
Proof. apply (inj_countable' key_code key_decode). by intros []. Defined.

(** [bool(x)] *)
Definition truthy (x : json) : bool :=
  match x with
  | JNull => false
  | JBool b => b
  | JInt n => negb (n =? 0)
  | JStr (Text s) => negb (String.eqb s "")
  | JStr (Stamp _) => true
  | JArr l => match l with [] => false | _ => true end
  | JObj kv => match kv with [] => false | _ => true end
  end.

(** [hash(x)], as [set.add] needs it: lists and dicts are unhashable. *)
Definition hash_key (x : json) : result key :=
  match x with
  | JNull => Ok KNone
  | JBool b => Ok (KInt (if b then 1 else 0))
  | JInt n => Ok (KInt n)
  | JStr s => Ok (KStr s)
  | JArr _ | JObj _ => Raise TypeError
  end.

(** The JSON value [json.dump] writes for a set element.  A set that
    holds [True] or [False] holds it as the element [1] or [0], and this
    function writes the integer where [json.dump] writes [true] or
    [false].  No operation of the tracker tells the two spellings
    apart ([isinstance(x, int)], truthiness, [hash] and [==] agree on
    them), and the statements below read the identifiers of a file
    through [hash_key], so that they hold for either spelling. *)
Definition json_of_key (k : key) : json :=
  match k with
  | KNone => JNull
  | KInt n => JInt n
  | KStr s => JStr s
  end.

(** [d.get(k)] on the items of a dict: [None] when the key is absent. *)
Fixpoint dict_lookup (kv : list (string * json)) (k : string) : option json :=
  match kv with
  | [] => None
  | (k', v) :: rest => if String.eqb k' k then Some v else dict_lookup rest k
  end.

Definition dict_get (kv : list (string * json)) (k : string) : json :=
  default JNull (dict_lookup kv k).

(** ** Datetimes *)

Definition day : Z := 86400000000.
Definition datetime_min : Z := -62135596800000000.
Definition datetime_max : Z := 253402300799999999.
Definition timedelta_max_days : Z := 999999999.

(** [now - timedelta(days=d)]: [OverflowError] when the timedelta or the
    resulting datetime is out of range. *)
Definition minus_days (now d : Z) : result Z :=
  if (d <? - timedelta_max_days) || (timedelta_max_days <? d) then Raise OverflowError
  else
    let t := now - d * day in
    if (t <? datetime_min) || (datetime_max <? t) then Raise OverflowError
    else Ok t.

(** ** The tracker and its two files *)

(** A file that exists: [Doc j] is [json.dump] output that [json.load]
    reads back as [j]; [Corrupt] is anything [open] or [json.load]
    raises on (a partly written or otherwise unparsable file). *)
Inductive content :=
| Corrupt
| Doc (j : json).

(** [seen_prs] is the attribute of the [PRTracker] object;
    [storage_file] and [temp_file] are the files at [self.storage_file]
    and at [f"{self.storage_file}.tmp"], [None] when absent. *)
Record world := World {
  seen_prs : gset key;
  storage_file : option content;
  temp_file : option content
}.

Definition set_seen (s : gset key) (w : world) : world :=
  World s (storage_file w) (temp_file w).

Definition set_temp (c : option content) (w : world) : world :=
  World (seen_prs w) (storage_file w) c.

(** Statements that can raise and that act on the world. *)
Definition py (A : Type) : Type := world → result A * world.

#[global] Instance py_ret : MRet py := λ A a w, (Ok a, w).

#[global] Instance py_bind : MBind py := λ A B f m w,
  match m w with
  | (Ok a, w') => f a w'
  | (Raise e, w') => (Raise e, w')
  end.

Definition raise {A} (e : exn) : py A := λ w, (Raise e, w).

Definition lift {A} (r : result A) : py A := λ w, (r, w).

Definition read {A} (f : world → A) : py A := λ w, (Ok (f w), w).

Definition update (f : world → world) : py unit := λ w, (Ok tt, f w).

(** [try: body except Exception: handler] *)
Definition try_except {A} (body handler : py A) : py A := λ w,
  match body w with
  | (Ok a, w') => (Ok a, w')
  | (Raise _, w') => handler w'
  end.

(** The world a statement leaves, and whether it raised. *)
Definition exec {A} (m : py A) (w : world) : world := (m w).2.

Definition raises {A} (m : py A) (w : world) : bool :=
  match (m w).1 with Ok _ => false | Raise _ => true end.

(** What the environment decides during one [save_seen_prs]: the
    reading of [utcnow()], which file operation fails if any, and
    whether [os.remove] fails in the handler. *)
Inductive save_fault :=
| NoFault
| OpenFails
| DumpFails
| RenameFails.

Record save_env := SaveEnv {
  clock : Z;
  fault : save_fault;
  remove_fails : bool
}.

(** ** save_seen_prs *)

Definition entry_of (current_time : Z) (pr_id : key) : json :=
  JObj [("id"%string, json_of_key pr_id);
        ("timestamp"%string, JStr (Stamp current_time))].

(** [data]; the comprehension runs over the set in its iteration order. *)
Definition document (current_time : Z) (s : gset key) : json :=
  JObj [("version"%string, JStr (Text "1.0"));
        ("last_updated"%string, JStr (Stamp current_time));
        ("prs"%string, JArr (entry_of current_time <$> elements s))].

(** [with open(temp_file, 'w') as f: json.dump(data, f, indent=2)] *)
Definition write_temp (f : save_fault) (data : json) : py unit := λ w,
  match f with
  | OpenFails => (Raise OSError, w)
  | DumpFails => (Raise OSError, set_temp (Some Corrupt) w)
  | NoFault | RenameFails => (Ok tt, set_temp (Some (Doc data)) w)
  end.

(** [os.rename(temp_file, self.storage_file)] *)
Definition rename_temp (f : save_fault) : py unit := λ w,
  match f, temp_file w with
  | RenameFails, _ | _, None => (Raise OSError, w)
  | _, Some c => (Ok tt, World (seen_prs w) (Some c) None)
  end.

(** [os.remove(temp_file)] *)
Definition remove_temp (fails : bool) : py unit := λ w,
  if fails then (Raise OSError, w) else (Ok tt, set_temp None w).

Definition save_body (e : save_env) : py unit :=
  s ← read seen_prs;
  _ ← write_temp (fault e) (document (clock e) s);
  rename_temp (fault e).

Definition save_handler (e : save_env) : py unit :=
  tmp ← read temp_file;
  if bool_decide (is_Some tmp)
  then try_except (remove_temp (remove_fails e)) (mret tt)
  else mret tt.

Definition save_seen_prs (e : save_env) : py unit :=
  try_except (save_body e) (save_handler e).

(** ** load_seen_prs *)

(** [json.load] on the open backing file. *)
Definition json_load : py json := λ w,
  match storage_file w with
  | Some (Doc j) => (Ok j, w)
  | Some Corrupt => (Raise JSONDecodeError, w)
  | None => (Raise OSError, w)
  end.

(** [data.get('prs', [])] *)
Definition get_prs (data : json) : result json :=
  match data with
  | JObj kv => Ok (default (JArr []) (dict_lookup kv "prs"))
  | _ => Raise AttributeError
  end.

(** [datetime.fromisoformat(timestamp_str.replace('Z', '+00:00'))
    .replace(tzinfo=None)] under [except ValueError: continue]:
    [Ok None] is the [continue]; a value without [.replace] raises
    [AttributeError], which that handler does not catch. *)
Definition parse_timestamp (timestamp_str : json) : result (option Z) :=
  match timestamp_str with
  | JStr (Stamp t) => Ok (Some t)
  | JStr (Text _) => Ok None
  | _ => Raise AttributeError
  end.

(** [valid_prs.add(x)] *)
Definition set_add (x : json) (valid_prs : gset key) : result (gset key) :=
  match hash_key x with
  | Ok k => Ok ({[k]} ∪ valid_prs)
  | Raise e => Raise e
  end.

(** One iteration of the loop of [load_seen_prs]. *)
Definition load_entry (cutoff_time : Z) (valid_prs : gset key) (entry : json)
  : result (gset key) :=
  match entry with
  | JObj kv =>
      let pr_id := dict_get kv "id" in
      let timestamp_str := dict_get kv "timestamp" in
      if truthy pr_id && truthy timestamp_str then
        match parse_timestamp timestamp_str with
        | Raise e => Raise e
        | Ok None => Ok valid_prs
        | Ok (Some timestamp) =>
            if cutoff_time <=? timestamp then set_add pr_id valid_prs
            else Ok valid_prs
        end
      else Ok valid_prs
  | JInt _ | JBool _ => set_add entry valid_prs
  | _ => Ok valid_prs
  end.

(** [for entry in entries: body] *)
Fixpoint for_each (body : gset key → json → result (gset key))
    (entries : list json) (valid_prs : gset key) : result (gset key) :=
  match entries with
  | [] => Ok valid_prs
  | entry :: rest =>
      match body valid_prs entry with
      | Ok v => for_each body rest v
      | Raise e => Raise e
      end
  end.

(** The loop over [prs] and the size test after it.  A list yields its
    elements.  A str yields its characters and a dict its keys: all
    strs, for which no branch of the body applies, so [valid_prs] stays
    empty, and [len(prs)] is [0] exactly when [prs] is falsy.  Anything
    else is not iterable.  The result is [valid_prs] and the value of
    [len(valid_prs) != len(prs)]. *)
Definition scan (body : gset key → json → result (gset key)) (prs : json)
  : result (gset key * bool) :=
  match prs with
  | JArr l =>
      match for_each body l ∅ with
      | Ok valid_prs => Ok (valid_prs, negb (bool_decide (size valid_prs = length l)))
      | Raise e => Raise e
      end
  | JStr _ | JObj _ => Ok (∅, truthy prs)
  | _ => Raise TypeError
  end.

Definition load_body (now : Z) (e : save_env) : py unit :=
  present ← read storage_file;
  if bool_decide (is_Some present) then
    data ← json_load;
    cutoff_time ← lift (minus_days now 30);
    prs ← lift (get_prs data);
    '(valid_prs, differs) ← lift (scan (load_entry cutoff_time) prs);
    _ ← update (set_seen valid_prs);
    if differs : bool then save_seen_prs e else mret tt
  else mret tt.

Definition load_seen_prs (now : Z) (e : save_env) : py unit :=
  try_except (load_body now e) (update (set_seen ∅)).

(** [PRTracker(storage_file)] on the files of [w]. *)
Definition PRTracker_init (now : Z) (e : save_env) : py unit :=
  _ ← update (set_seen ∅);
  load_seen_prs now e.

(** ** has_seen_pr, mark_pr_as_seen, get_seen_count *)

Definition has_seen_pr (pr_id : Z) (w : world) : bool :=
  bool_decide (KInt pr_id ∈ seen_prs w).

Definition mark_pr_as_seen (pr_id : Z) (e : save_env) : py unit :=
  s ← read seen_prs;
  if bool_decide (KInt pr_id ∈ s) then mret tt
  else
    _ ← update (set_seen ({[KInt pr_id]} ∪ s));
    save_seen_prs e.

Definition get_seen_count (w : world) : nat := size (seen_prs w).

(** ** cleanup_old_entries *)

(** One iteration of the loop of [cleanup_old_entries]; [entry['id']]
    raises [KeyError] when the key is absent. *)
Definition cleanup_entry (cutoff_time : Z) (valid_prs : gset key) (entry : json)
  : result (gset key) :=
  match entry with
  | JObj kv =>
      let timestamp_str := dict_get kv "timestamp" in
      if truthy timestamp_str then
        match parse_timestamp timestamp_str with
        | Raise e => Raise e
        | Ok None => Ok valid_prs
        | Ok (Some timestamp) =>
            if cutoff_time <=? timestamp then
              match dict_lookup kv "id" with
              | Some pr_id => set_add pr_id valid_prs
              | None => Raise KeyError
              end
            else Ok valid_prs
        end
      else Ok valid_prs
  | JInt _ | JBool _ => set_add entry valid_prs
  | _ => Ok valid_prs
  end.

Definition cleanup_body (days now : Z) (e : save_env) : py unit :=
  present ← read storage_file;
  if bool_decide (is_Some present) then
    data ← json_load;
    cutoff_time ← lift (minus_days now days);
    prs ← lift (get_prs data);
    '(valid_prs, _) ← lift (scan (cleanup_entry cutoff_time) prs);
    _ ← update (set_seen valid_prs);
    save_seen_prs e
  else mret tt.

Definition cleanup_old_entries (days now : Z) (e : save_env) : py unit :=
  try_except (cleanup_body days now e) (mret tt).

(** ** Views used by the statements *)

(** The world after [save_seen_prs], by the fault met. *)
Definition after_save (e : save_env) (w : world) : world :=
  let data := document (clock e) (seen_prs w) in
  match fault e with
  | NoFault => World (seen_prs w) (Some (Doc data)) None
  | OpenFails =>
      World (seen_prs w) (storage_file w)
        (if remove_fails e then temp_file w else None)
  | DumpFails =>
      World (seen_prs w) (storage_file w)
        (if remove_fails e then Some Corrupt else None)
  | RenameFails =>
      World (seen_prs w) (storage_file w)
        (if remove_fails e then Some (Doc data) else None)
  end.

(** The calls of the monitoring loop on its tracker. *)
Inductive call :=
| HasSeen (pr_id : Z)
| GetCount
| Mark (pr_id : Z) (e : save_env)
| Save (e : save_env).

Definition run_call (c : call) (w : world) : world :=
  match c with
  | HasSeen _ | GetCount => w
  | Mark pr_id e => exec (mark_pr_as_seen pr_id e) w
  | Save e => exec (save_seen_prs e) w
  end.

Definition run_calls (cs : list call) (w : world) : world :=
  foldl (λ w c, run_call c w) w cs.



(** The two record forms of the [prs] array: a bare integer, and an
    object whose [id] is an integer and whose [timestamp] is ISO text. *)
Inductive record :=
| Bare (pr_id : Z)
| Timed (pr_id : Z) (timestamp : Z).

Definition record_of (entry : json) : option record :=
  match entry with
  | JInt n => Some (Bare n)
  | JObj kv =>
      match dict_lookup kv "id", dict_lookup kv "timestamp" with
      | Some (JInt i), Some (JStr (Stamp t)) => Some (Timed i t)
      | _, _ => None
      end
  | _ => None
  end.

(** The element a record leaves in [valid_prs] during [load_seen_prs]. *)
Definition kept (cutoff_time : Z) (r : record) : option key :=
  match r with
  | Bare n => Some (KInt n)
  | Timed i t =>
      if negb (i =? 0) && (cutoff_time <=? t) then Some (KInt i) else None
  end.

(** The [prs] list of the backing file, and the timestamps it pairs
    with an identifier. *)
Definition durable_prs (w : world) : list json :=
  match storage_file w with
  | Some (Doc (JObj kv)) =>
      match dict_lookup kv "prs" with
      | Some (JArr l) => l
      | _ => []
      end
  | _ => []
  end.

(** The timestamp of [entry] when it is an object whose [id] is the
    identifier [pr_id] as a set element, and whose [timestamp] is a
    timestamp. *)
Definition stamp_for (pr_id : Z) (entry : json) : option Z :=
  match entry with
  | JObj kv =>
      match hash_key (dict_get kv "id"), dict_get kv "timestamp" with
      | Ok (KInt i), JStr (Stamp t) =>
          if bool_decide (i = pr_id) then Some t else None
      | _, _ => None
      end
  | _ => None
  end.

Definition durable_timestamps (pr_id : Z) (w : world) : list Z :=
  omap (stamp_for pr_id) (durable_prs w).

Definition truthy_key (k : key) : Prop := truthy (json_of_key k) = true.

#[global] Instance truthy_key_dec (k : key) : Decision (truthy_key k).
Proof. unfold truthy_key. apply _. Defined.

(** The scenario of the specification: at day 100, a backing file with
    identifier 5 stamped 40 days ago, 6 stamped 2 days ago, and a bare 7. *)
Definition scenario_prs : list json :=
  [entry_of (60 * day) (KInt 5); entry_of (98 * day) (KInt 6); JInt 7].

Definition scenario_items : list (string * json) :=
  [("version"%string, JStr (Text "1.0"));
   ("last_updated"%string, JStr (Stamp (98 * day)));
   ("prs"%string, JArr scenario_prs)].

Definition scenario_world : world :=
  World ∅ (Some (Doc (JObj scenario_items))) None.

Definition scenario_records : list record :=
  [Timed 5 (60 * day); Timed 6 (98 * day); Bare 7].

(** The element a record leaves in [valid_prs] during
    [cleanup_old_entries]. *)
Definition kept_by_cleanup (cutoff_time : Z) (r : record) : option key :=
  match r with
  | Bare n => Some (KInt n)
  | Timed i t => if cutoff_time <=? t then Some (KInt i) else None
  end.

(** ** The monitoring loop of [main.py] *)

(** One pass of the inner loop of [main]:
    [for pr in merged_prs: if not pr_tracker.has_seen_pr(pr['id']):
    all_new_prs.append(pr); pr_tracker.mark_pr_as_seen(pr['id'])].
    [pr_id pr] is [pr['id']]; each candidate comes with the clock reading
    and the faults its [mark_pr_as_seen] call meets if it is made. *)
Fixpoint filter_unseen {PR : Type} (pr_id : PR → Z)
    (merged_prs : list (PR * save_env)) (all_new_prs : list PR) : py (list PR) :=
  match merged_prs with
  | [] => mret all_new_prs
  | (pr, e) :: rest =>
      seen ← read (has_seen_pr (pr_id pr));
      if seen : bool then filter_unseen pr_id rest all_new_prs
      else
        _ ← mark_pr_as_seen (pr_id pr) e;
        filter_unseen pr_id rest (all_new_prs ++ [pr])
  end.

(** The loop over [config.target_branches]; [fetched] lists what
    [get_merged_prs] returned for each branch, [None] for a failed call,
    which is skipped. *)
Fixpoint check_branches {PR : Type} (pr_id : PR → Z)
    (fetched : list (option (list (PR * save_env)))) (all_new_prs : list PR)
  : py (list PR) :=
  match fetched with
  | [] => mret all_new_prs
  | None :: rest => check_branches pr_id rest all_new_prs
  | Some merged_prs :: rest =>
      all_new_prs ← filter_unseen pr_id merged_prs all_new_prs;
      check_branches pr_id rest all_new_prs
  end.

(** The identifiers of the pull requests fetched in one cycle. *)
Definition fetched_ids {PR : Type} (pr_id : PR → Z)
    (fetched : list (option (list (PR * save_env)))) : list Z :=
  pr_id <$> (mjoin (omap id fetched)).*1.

(** ** Texts of [discord_notifier.py] and [config.py] *)

(** A Python [str] as the list of its code points, so that [len],
    slices and [in] count as Python does. *)
Abbreviation text := (list N).

Definition text_of (s : string) : text :=
  Ascii.N_of_ascii <$> String.list_ascii_of_string s.

(** [if len(s) > limit: s = s[:keep] + "..."] *)
Definition truncate (limit keep : nat) (s : text) : text :=
  if decide (limit < length s)%nat then take keep s ++ text_of "..." else s.

(** [title] and [description] of [_create_pr_embed], and the
    [description] field [f"**{title}**\n\n{description}"] of the
    embed; [body] is [pr_data.get('body')], [None] included. *)
Definition embed_title (title : text) : text := truncate 256 253 title.

Definition embed_body (body : option text) : text :=
  truncate 400 397
    (match body with
     | Some (c :: b) => c :: b
     | Some [] | None => text_of "No description provided."
     end).

Definition embed_description (title : text) (body : option text) : text :=
  text_of "**" ++ embed_title title ++ text_of "**" ++ [10%N; 10%N] ++
  embed_body body.

(** The attributes of [Config] that [validate] reads. *)
Record Config := {
  github_token : text;
  github_repo : text;
  discord_webhook_url : text;
  polling_interval : Z
}.

Definition newline : string := String (Ascii.ascii_of_nat 10) EmptyString.

(** [errors] of [Config.validate], in the order they are appended. *)
Definition validation_errors (c : Config) : list string :=
  (if bool_decide (github_token c = [])
   then ["GITHUB_TOKEN environment variable is required"%string] else []) ++
  (if bool_decide (github_repo c = [])
   then ["GITHUB_REPO environment variable is required (format: owner/repo)"%string]
   else []) ++
  (if bool_decide (discord_webhook_url c = [])
   then ["DISCORD_WEBHOOK_URL environment variable is required"%string] else []) ++
  (if bool_decide (47%N ∈ github_repo c) then []
   else ["GITHUB_REPO must be in format 'owner/repository'"%string]) ++
  (if polling_interval c <? 60
   then ["POLLING_INTERVAL must be at least 60 seconds to respect GitHub API rate limits"%string]
   else []).

(** [Config.validate]: [Some msg] is [raise ValueError(msg)], [None] a
    normal return. *)
Definition validate (c : Config) : option string :=
  match validation_errors c with
  | [] => None
  | errors =>
      Some ("Configuration validation failed:" +:+ newline +:+
            String.concat newline ((λ error, "- " +:+ error) <$> errors))
  end.

(** [s.split(sep)] for a one-character separator. *)
Fixpoint split_on (sep : N) (s : text) : list text :=
  match s with
  | [] => [[]]
  | c :: rest =>
      if bool_decide (c = sep) then [] :: split_on sep rest
      else
        match split_on sep rest with
        | piece :: pieces => (c :: piece) :: pieces
        | [] => [[c]]
        end
  end.

(** [s.lstrip()] and [s.strip()]; [isspace] tells the code points that
    [str.strip] removes. *)
Fixpoint lstrip (isspace : N → bool) (s : text) : text :=
  match s with
  | [] => []
  | c :: rest => if isspace c then lstrip isspace rest else s
  end.

Definition strip (isspace : N → bool) (s : text) : text :=
  reverse (lstrip isspace (reverse (lstrip isspace s))).

(** [target_branches] of [Config.__init__]:
    [os.getenv('TARGET_BRANCHES', os.getenv('TARGET_BRANCH', 'staging'))]
    split at the commas, each piece stripped; the arguments are the
    values of the two variables, [None] when unset. *)
Definition target_branches (isspace : N → bool)
    (env_target_branches env_target_branch : option text) : list text :=
  let target_branches_str :=
    default (default (text_of "staging") env_target_branch) env_target_branches in
  strip isspace <$> split_on 44 target_branches_str.

(** [self.target_branches[0] if self.target_branches else 'staging'] *)
Definition target_branch (branches : list text) : text :=
  match branches with
  | branch :: _ => branch
  | [] => text_of "staging"
  end.

(** * Properties *)

Ltac py_unfold :=
  unfold exec, raises, try_except, mbind, py_bind, mret, py_ret, read,
    update, lift, raise in *.

(** ** What a call of [save_seen_prs] leaves behind *)

Lemma save_seen_prs_after (e : save_env) (w : world) :
  save_seen_prs e w = (Ok tt, after_save e w).
Proof.
  destruct e as [t f rm], w as [s st tmp].
  destruct f, rm, tmp; reflexivity.
Qed.

Lemma after_save_seen (e : save_env) (w : world) :
  seen_prs (after_save e w) = seen_prs w.
Proof. unfold after_save. by destruct (fault e). Qed.

Lemma exec_save_seen (e : save_env) (w : world) :
  seen_prs (exec (save_seen_prs e) w) = seen_prs w.
Proof. unfold exec. rewrite save_seen_prs_after. apply after_save_seen. Qed.

Lemma after_save_storage (e : save_env) (w : world) :
  storage_file (after_save e w) =
    match fault e with
    | NoFault => Some (Doc (document (clock e) (seen_prs w)))
    | _ => storage_file w
    end.
Proof. unfold after_save. by destruct (fault e). Qed.

(** ** mark_pr_as_seen *)

Lemma mark_pr_as_seen_cases (pr_id : Z) (e : save_env) (w : world) :
  mark_pr_as_seen pr_id e w =
    if has_seen_pr pr_id w then (Ok tt, w)
    else (Ok tt, after_save e (set_seen ({[KInt pr_id]} ∪ seen_prs w) w)).
Proof.
  unfold mark_pr_as_seen, has_seen_pr. py_unfold.
  destruct (bool_decide (KInt pr_id ∈ seen_prs w)); [done|].
  apply save_seen_prs_after.
Qed.

Lemma has_seen_pr_after_mark (pr_id : Z) (e : save_env) (w : world) :
  has_seen_pr pr_id (exec (mark_pr_as_seen pr_id e) w) = true.
Proof.
  unfold exec. rewrite mark_pr_as_seen_cases.
  destruct (has_seen_pr pr_id w) eqn:Hseen; [done|].
  unfold has_seen_pr. simpl. rewrite after_save_seen. simpl.
  apply bool_decide_eq_true. set_solver.
Qed.

(** C1. Marking an identifier a second time changes nothing: the count
    is the one after the first call, the identifier is seen after either
    call, and the second call returns the world it was given, set and
    both files, whatever clock reading and fault it is run under. *)
Theorem mark_pr_as_seen_twice (pr_id : Z) (e1 e2 : save_env) (w : world) :
  let w1 := exec (mark_pr_as_seen pr_id e1) w in
  let w2 := exec (mark_pr_as_seen pr_id e2) w1 in
  get_seen_count w2 = get_seen_count w1 ∧
  has_seen_pr pr_id w1 = true ∧
  has_seen_pr pr_id w2 = true ∧
  mark_pr_as_seen pr_id e2 w1 = (Ok tt, w1).
Proof.
  intros w1 w2.
  assert (H1 : has_seen_pr pr_id w1 = true) by apply has_seen_pr_after_mark.
  assert (H2 : mark_pr_as_seen pr_id e2 w1 = (Ok tt, w1)).
  { rewrite mark_pr_as_seen_cases. by rewrite H1. }
  assert (Hw : w2 = w1) by (unfold w2, exec; by rewrite H2).
  rewrite Hw. done.
Qed.

(** ** The persistence protocol *)

Lemma elem_of_entries (t : Z) (s : gset key) (k : key) :
  k ∈ s ↔ entry_of t k ∈ entry_of t <$> elements s.
Proof.
  rewrite list_elem_of_fmap. split.
  - intros Hk. exists k. split; [done|]. by apply elem_of_elements.
  - intros (k' & Heq & Hk'). apply elem_of_elements in Hk'.
    assert (k = k') as ->; [|done].
    unfold entry_of in Heq. destruct k, k'; simpl in Heq; congruence.
Qed.

(** C5. [save_seen_prs] builds one document from the whole set: an
    object with the version tag ["1.0"], the time of the save as
    [last_updated], and under [prs] a list with one record per element
    of the set and nothing else, each record an object of exactly the two
    items [id], the element, and [timestamp], the time of the save.  It
    writes the document to the temporary file, leaving the backing file
    as it was, and then renames the temporary file over the backing
    file.  When the rename fails after the temporary file was written,
    and under every other fault, the backing file holds what it held
    before. *)
Theorem save_seen_prs_write_then_rename
    (t : Z) (f : save_fault) (rm : bool) (w : world) :
  let data := document t (seen_prs w) in
  let written := World (seen_prs w) (storage_file w) (Some (Doc data)) in
  (∃ prs,
     data = JObj [("version"%string, JStr (Text "1.0"));
                  ("last_updated"%string, JStr (Stamp t));
                  ("prs"%string, JArr prs)] ∧
     Forall2
       (λ entry k,
          ∃ x, entry = JObj [("id"%string, x);
                             ("timestamp"%string, JStr (Stamp t))] ∧
               hash_key x = Ok k)
       prs (elements (seen_prs w))) ∧
  save_body (SaveEnv t f rm) w =
    (_ ← write_temp f data; rename_temp f) w ∧
  write_temp NoFault data w = (Ok tt, written) ∧
  rename_temp NoFault written = (Ok tt, World (seen_prs w) (Some (Doc data)) None) ∧
  save_seen_prs (SaveEnv t NoFault rm) w =
    (Ok tt, World (seen_prs w) (Some (Doc data)) None) ∧
  write_temp RenameFails data w = (Ok tt, written) ∧
  rename_temp RenameFails written = (Raise OSError, written) ∧
  storage_file (exec (save_seen_prs (SaveEnv t RenameFails rm)) w) = storage_file w ∧
  storage_file (exec (save_seen_prs (SaveEnv t f rm)) w) =
    match f with NoFault => Some (Doc data) | _ => storage_file w end.
Proof.
  intros data written.
  assert (Hst : ∀ f', storage_file (exec (save_seen_prs (SaveEnv t f' rm)) w) =
            match f' with NoFault => Some (Doc data) | _ => storage_file w end).
  { intros f'. unfold exec. rewrite save_seen_prs_after. simpl.
    rewrite after_save_storage. by destruct f'. }
  split; [|split_and!].
  - exists (entry_of t <$> elements (seen_prs w)). split; [done|].
    apply Forall2_fmap_l, Forall_Forall2_diag, Forall_forall.
    intros k _. exists (json_of_key k). split; [done|by destruct k].
  - done.
  - done.
  - done.
  - by rewrite save_seen_prs_after.
  - done.
  - done.
  - apply (Hst RenameFails).
  - apply Hst.
Qed.

(** ** Failures *)

Lemma try_except_total {A} (body handler : py A) (w : world) :
  raises handler (body w).2 = false → raises (try_except body handler) w = false.
Proof.
  unfold raises, try_except. destruct (body w) as [[a|x] w']; simpl; [done|].
  by destruct (handler w') as [[a|y] w''].
Qed.

Lemma load_seen_prs_total (now : Z) (e : save_env) (w : world) :
  raises (load_seen_prs now e) w = false.
Proof. by apply try_except_total. Qed.

(** C6. [load_seen_prs] raises in no world: whatever the backing file
    holds and whatever happens to a save it starts, the call returns.  So
    does the constructor.  On a backing file that cannot be parsed the
    set is left empty and the files are not touched. *)
Theorem load_seen_prs_never_raises
    (now : Z) (e : save_env) (w : world) :
  raises (load_seen_prs now e) w = false ∧
  raises (PRTracker_init now e) w = false ∧
  load_seen_prs now e (World (seen_prs w) (Some Corrupt) (temp_file w)) =
    (Ok tt, World ∅ (Some Corrupt) (temp_file w)).
Proof.
  split_and!.
  - apply load_seen_prs_total.
  - unfold PRTracker_init, raises. py_unfold. simpl.
    apply (load_seen_prs_total now e (set_seen ∅ w)).
  - reflexivity.
Qed.

Lemma get_seen_count_add (k : key) (s : gset key) :
  k ∉ s → size ({[k]} ∪ s) = S (size s).
Proof.
  intros Hk. rewrite size_union by set_solver. by rewrite size_singleton.
Qed.

(** C7 (as amended). A call of [mark_pr_as_seen] on a new identifier
    whose save fails, at the open, at the write or at the rename,
    returns without raising; the identifier is seen and counted
    afterwards; the backing file is as before.  The handler removes the
    temporary file when [os.remove] succeeds; when [os.remove] fails
    too, that failure is swallowed and the temporary file stays as the
    failed save left it. *)
Theorem mark_pr_as_seen_failed_persist
    (pr_id t : Z) (f : save_fault) (rm : bool) (w : world)
    (Hnew : has_seen_pr pr_id w = false) (Hf : f ≠ NoFault) :
  let w' := exec (mark_pr_as_seen pr_id (SaveEnv t f rm)) w in
  raises (mark_pr_as_seen pr_id (SaveEnv t f rm)) w = false ∧
  has_seen_pr pr_id w' = true ∧
  get_seen_count w' = S (get_seen_count w) ∧
  seen_prs w' = {[KInt pr_id]} ∪ seen_prs w ∧
  storage_file w' = storage_file w ∧
  temp_file w' =
    (if rm then
       match f with
       | OpenFails => temp_file w
       | DumpFails => Some Corrupt
       | _ => Some (Doc (document t ({[KInt pr_id]} ∪ seen_prs w)))
       end
     else None).
Proof.
  intros w'. unfold w', exec, raises.
  rewrite !mark_pr_as_seen_cases, Hnew. simpl.
  assert (Hs : seen_prs (after_save (SaveEnv t f rm)
                  (set_seen ({[KInt pr_id]} ∪ seen_prs w) w))
               = {[KInt pr_id]} ∪ seen_prs w) by apply after_save_seen.
  split_and!.
  - done.
  - unfold has_seen_pr. rewrite Hs. apply bool_decide_eq_true.
    apply elem_of_union_l. by apply elem_of_singleton.
  - unfold get_seen_count. rewrite Hs. apply get_seen_count_add.
    unfold has_seen_pr in Hnew. by apply bool_decide_eq_false in Hnew.
  - done.
  - rewrite after_save_storage. by destruct f.
  - by destruct f, rm.
Qed.

Lemma mark_pr_as_seen_failed_persist_witness :
  let w := World {[KInt 7]} None None in
  let w' := exec (mark_pr_as_seen 8 (SaveEnv 0 RenameFails false)) w in
  raises (mark_pr_as_seen 8 (SaveEnv 0 RenameFails false)) w = false ∧
  has_seen_pr 8 w' = true ∧
  get_seen_count w' = S (get_seen_count w) ∧
  seen_prs w' = {[KInt 8]} ∪ seen_prs w ∧
  storage_file w' = storage_file w ∧
  temp_file w' = None.
Proof.
  apply (mark_pr_as_seen_failed_persist 8 0 RenameFails false
           (World {[KInt 7]} None None)).
  - vm_compute. reflexivity.
  - discriminate.
Defined.

(** C7 (as stated) fails: identifier 8 is marked while the rename fails
    and [os.remove] fails as well; the call returns without raising and 8
    is seen, but the temporary file written by the failed save is still
    there. *)
Lemma temp_file_left_when_remove_fails :
  let w := World {[KInt 7]} None None in
  let w' := exec (mark_pr_as_seen 8 (SaveEnv 0 RenameFails true)) w in
  raises (mark_pr_as_seen 8 (SaveEnv 0 RenameFails true)) w = false ∧
  has_seen_pr 8 w' = true ∧
  storage_file w' = None ∧
  temp_file w = None ∧
  temp_file w' = Some (Doc (document 0 {[KInt 7; KInt 8]})).
Proof.
  split_and!; vm_compute; reflexivity.
Qed.

(** ** Sequences of calls *)

Lemma run_call_keeps (c : call) (w : world) :
  seen_prs w ⊆ seen_prs (run_call c w).
Proof.
  destruct c as [i| |i e|e]; simpl; try done.
  - unfold exec. rewrite mark_pr_as_seen_cases.
    destruct (has_seen_pr i w); simpl; [done|].
    rewrite after_save_seen. simpl. set_solver.
  - by rewrite exec_save_seen.
Qed.

Lemma run_calls_keep (cs : list call) (w : world) :
  seen_prs w ⊆ seen_prs (run_calls cs w).
Proof.
  revert w. induction cs as [|c cs IH]; intros w; simpl; [done|].
  etrans; [apply (run_call_keeps c)|apply IH].
Qed.

(** C9 (as amended). Once [mark_pr_as_seen pr_id] has returned,
    [has_seen_pr pr_id] stays true through every later sequence of
    [has_seen_pr], [get_seen_count], [mark_pr_as_seen] and
    [save_seen_prs] calls, whatever the clock readings and whichever
    saves fail. *)
Theorem has_seen_pr_stable
    (pr_id : Z) (e : save_env) (cs : list call) (w : world) :
  has_seen_pr pr_id (run_calls cs (exec (mark_pr_as_seen pr_id e) w)) = true.
Proof.
  pose proof (has_seen_pr_after_mark pr_id e w) as H.
  unfold has_seen_pr in *. apply bool_decide_eq_true in H.
  apply bool_decide_eq_true. by apply run_calls_keep.
Qed.

(** C9 (as stated) fails: identifier 5 is marked and saved at time 0;
    [cleanup_old_entries] with its default of 30 days, run 31 days later,
    reads the record back as expired and replaces the set by the empty
    one. *)
Lemma cleanup_old_entries_forgets_marked :
  let w1 := exec (mark_pr_as_seen 5 (SaveEnv 0 NoFault false)) (World ∅ None None) in
  let w2 := exec (cleanup_old_entries 30 (31 * day)
                    (SaveEnv (31 * day) NoFault false)) w1 in
  has_seen_pr 5 w1 = true ∧ has_seen_pr 5 w2 = false.
Proof. vm_compute. done. Qed.

(** ** Records of the backing file *)

Lemma load_entry_record (cutoff : Z) (valid : gset key) (entry : json) (r : record) :
  record_of entry = Some r →
  load_entry cutoff valid entry =
    Ok (match kept cutoff r with Some k => {[k]} ∪ valid | None => valid end).
Proof.
  destruct entry as [| |n|s|l|kv]; simpl; try done.
  - by intros [= <-].
  - unfold dict_get.
    destruct (dict_lookup kv "id") as [[| |i| | |]|]; try done.
    destruct (dict_lookup kv "timestamp") as [[| | |[s|t]| |]|]; try done.
    intros [= <-]. simpl.
    destruct (i =? 0); simpl; [done|]. by destruct (cutoff <=? t).
Qed.

Lemma for_each_load_records (cutoff : Z) (l : list json) (rs : list record) :
  Forall2 (λ x y, record_of x = Some y) l rs →
  ∀ valid, for_each (load_entry cutoff) l valid =
             Ok (list_to_set (omap (kept cutoff) rs) ∪ valid).
Proof.
  induction 1 as [|x y l rs Hxy _ IH]; intros valid; simpl.
  - f_equal. set_solver.
  - rewrite (load_entry_record _ _ _ _ Hxy).
    destruct (kept cutoff y) as [k|]; rewrite IH; simpl; f_equal; set_solver.
Qed.

Lemma size_list_to_set_le (l : list key) :
  (size (list_to_set (C := gset key) l) ≤ length l)%nat.
Proof.
  induction l as [|x l IH].
  - by rewrite list_to_set_nil, size_empty.
  - rewrite list_to_set_cons, size_union_alt, size_singleton. simpl.
    assert (size (list_to_set (C := gset key) l ∖ {[x]}) ≤ size (list_to_set (C := gset key) l))%nat.
    { apply subseteq_size. set_solver. }
    lia.
Qed.

Lemma length_omap_le {A B} (f : A → option B) (l : list A) :
  (length (omap f l) ≤ length l)%nat.
Proof.
  induction l as [|x l IH]; csimpl; [done|].
  destruct (f x); csimpl; lia.
Qed.

Lemma length_omap_lt {A B} (f : A → option B) (l : list A) (x : A) :
  x ∈ l → f x = None → (length (omap f l) < length l)%nat.
Proof.
  intros Hx Hfx. induction l as [|y l IH]; [by apply elem_of_nil in Hx|].
  apply elem_of_cons in Hx as [->|Hx]; csimpl.
  - rewrite Hfx. pose proof (length_omap_le f l). lia.
  - specialize (IH Hx). destruct (f y); csimpl; lia.
Qed.

Lemma minus_days_in_range (now d : Z) :
  - timedelta_max_days ≤ d ≤ timedelta_max_days →
  datetime_min ≤ now - d * day ≤ datetime_max →
  minus_days now d = Ok (now - d * day).
Proof.
  intros Hd Ht. unfold minus_days.
  destruct (Z.ltb_spec d (- timedelta_max_days)); [lia|].
  destruct (Z.ltb_spec timedelta_max_days d); [lia|]. simpl.
  destruct (Z.ltb_spec (now - d * day) datetime_min); [lia|].
  destruct (Z.ltb_spec datetime_max (now - d * day)); [lia|]. done.
Qed.

(** The world [load_seen_prs] leaves on a backing file whose [prs] is a
    list of records. *)
Lemma load_seen_prs_records (now : Z) (e : save_env) (w : world)
    (kv : list (string * json)) (l : list json) (rs : list record) :
  datetime_min + 30 * day ≤ now ≤ datetime_max →
  storage_file w = Some (Doc (JObj kv)) →
  dict_lookup kv "prs" = Some (JArr l) →
  mapM record_of l = Some rs →
  let valid : gset key := list_to_set (omap (kept (now - 30 * day)) rs) in
  load_seen_prs now e w =
    if bool_decide (size valid = length l) then (Ok tt, set_seen valid w)
    else save_seen_prs e (set_seen valid w).
Proof.
  intros Hnow Hst Hprs Hrs valid.
  apply mapM_Some_1 in Hrs.
  unfold load_seen_prs, load_body. py_unfold. rewrite Hst. simpl.
  unfold json_load. rewrite Hst.
  rewrite minus_days_in_range; [|unfold timedelta_max_days; lia|unfold datetime_max, datetime_min, day in *; lia].
  simpl. rewrite Hprs. simpl.
  rewrite (for_each_load_records _ _ _ Hrs).
  assert ((list_to_set (omap (kept (now - 30 * day)) rs) ∪ ∅ : gset key) = valid) as ->
    by (unfold valid; set_solver).
  destruct (bool_decide (size valid = length l)); simpl; [done|].
  by rewrite save_seen_prs_after.
Qed.

Lemma seen_after_load_records (now : Z) (e : save_env) (w : world)
    (kv : list (string * json)) (l : list json) (rs : list record) :
  datetime_min + 30 * day ≤ now ≤ datetime_max →
  storage_file w = Some (Doc (JObj kv)) →
  dict_lookup kv "prs" = Some (JArr l) →
  mapM record_of l = Some rs →
  seen_prs (exec (load_seen_prs now e) w) =
    list_to_set (omap (kept (now - 30 * day)) rs).
Proof.
  intros Hnow Hst Hprs Hrs. unfold exec.
  rewrite (load_seen_prs_records now e w kv l rs Hnow Hst Hprs Hrs).
  destruct (bool_decide _); simpl; [done|].
  rewrite save_seen_prs_after. simpl. by rewrite after_save_seen.
Qed.

(** C3 (as amended). On a backing file whose [prs] is a list of bare
    integers and of [{id, timestamp}] records, [load_seen_prs] keeps
    every bare integer; a non-zero identifier is in the set exactly when
    it is a bare integer of the list or some record of it carries a
    timestamp at most 30 days old, the bound included; and when some
    record is older than that, the call ends in [save_seen_prs] on the
    pruned set. *)
Theorem load_seen_prs_retention (now : Z) (e : save_env) (w : world)
    (kv : list (string * json)) (l : list json) (rs : list record)
    (Hnow : datetime_min + 30 * day ≤ now ≤ datetime_max)
    (Hfile : storage_file w = Some (Doc (JObj kv)))
    (Hprs : dict_lookup kv "prs" = Some (JArr l))
    (Hrs : mapM record_of l = Some rs) :
  let w' := exec (load_seen_prs now e) w in
  (∀ i, Bare i ∈ rs → has_seen_pr i w' = true) ∧
  (∀ i, i ≠ 0 →
     has_seen_pr i w' = true ↔
       Bare i ∈ rs ∨ ∃ t, Timed i t ∈ rs ∧ now - t ≤ 30 * day) ∧
  ((∃ i t, Timed i t ∈ rs ∧ ¬ now - t ≤ 30 * day) →
     load_seen_prs now e w = save_seen_prs e (set_seen (seen_prs w') w)).
Proof.
  intros w'.
  pose proof (seen_after_load_records now e w kv l rs Hnow Hfile Hprs Hrs) as Hseen.
  fold w' in Hseen.
  assert (Hin : ∀ k, k ∈ seen_prs w' ↔ ∃ r, r ∈ rs ∧ kept (now - 30 * day) r = Some k).
  { intros k. rewrite Hseen, elem_of_list_to_set. apply list_elem_of_omap. }
  split_and!.
  - intros i Hi. apply bool_decide_eq_true, Hin. by exists (Bare i).
  - intros i Hi. unfold has_seen_pr. rewrite bool_decide_eq_true, Hin. split.
    + intros ([n|j t] & Hr & Hk); simpl in Hk.
      * left. by injection Hk as ->.
      * right. destruct (Z.eqb_spec j 0); simpl in Hk; [done|].
        destruct (Z.leb_spec (now - 30 * day) t); [|done].
        injection Hk as ->. exists t. split; [done|lia].
    + intros [Hb|(t & Ht & Hage)].
      * by exists (Bare i).
      * exists (Timed i t). split; [done|]. simpl.
        destruct (Z.eqb_spec i 0); [done|]. simpl.
        destruct (Z.leb_spec (now - 30 * day) t); [done|lia].
  - intros (i & t & Ht & Hold).
    rewrite (load_seen_prs_records now e w kv l rs Hnow Hfile Hprs Hrs).
    rewrite <- Hseen.
    rewrite bool_decide_eq_false_2; [done|].
    rewrite Hseen.
    pose proof (size_list_to_set_le (omap (kept (now - 30 * day)) rs)) as Hsz.
    assert (Hlt : (length (omap (kept (now - 30 * day)) rs) < length rs)%nat).
    { apply (length_omap_lt _ _ (Timed i t)); [done|]. simpl.
      destruct (Z.leb_spec (now - 30 * day) t); [lia|].
      by rewrite andb_false_r. }
    apply mapM_Some_1, Forall2_length in Hrs. lia.
Qed.

Lemma load_seen_prs_retention_witness :
  let w' := exec (load_seen_prs (100 * day) (SaveEnv (100 * day) NoFault false))
              scenario_world in
  (∀ i, Bare i ∈ scenario_records → has_seen_pr i w' = true) ∧
  (∀ i, i ≠ 0 →
     has_seen_pr i w' = true ↔
       Bare i ∈ scenario_records ∨
       ∃ t, Timed i t ∈ scenario_records ∧ 100 * day - t ≤ 30 * day) ∧
  ((∃ i t, Timed i t ∈ scenario_records ∧ ¬ 100 * day - t ≤ 30 * day) →
     load_seen_prs (100 * day) (SaveEnv (100 * day) NoFault false) scenario_world =
       save_seen_prs (SaveEnv (100 * day) NoFault false)
         (set_seen (seen_prs w') scenario_world)).
Proof.
  apply (load_seen_prs_retention (100 * day) (SaveEnv (100 * day) NoFault false)
           scenario_world scenario_items scenario_prs scenario_records).
  - vm_compute. split; discriminate.
  - reflexivity.
  - reflexivity.
  - reflexivity.
Defined.

(** C3 (as stated) fails at the bound: a record stamped exactly 30 days
    before the load is not younger than 30 days, and is kept. *)
Lemma load_seen_prs_keeps_day_30 :
  let now := 100 * day in
  let stamp := 70 * day in
  let file := Doc (JObj [("prs"%string, JArr [entry_of stamp (KInt 5)])]) in
  let w' := exec (load_seen_prs now (SaveEnv now NoFault false))
              (World ∅ (Some file) None) in
  ¬ now - stamp < 30 * day ∧ has_seen_pr 5 w' = true.
Proof. split; [vm_compute; discriminate | vm_compute; reflexivity]. Qed.

(** ** Reading back what [save_seen_prs] wrote *)

Lemma hash_key_json_of_key (k : key) : hash_key (json_of_key k) = Ok k.
Proof. by destruct k. Qed.

Lemma load_entry_entry_of (cutoff t : Z) (valid : gset key) (k : key) :
  load_entry cutoff valid (entry_of t k) =
    Ok (if truthy (json_of_key k) && (cutoff <=? t) then {[k]} ∪ valid else valid).
Proof.
  unfold entry_of, load_entry, dict_get. simpl.
  rewrite andb_true_r.
  destruct (truthy (json_of_key k)); simpl; [|done].
  destruct (cutoff <=? t); [|done].
  unfold set_add. by rewrite hash_key_json_of_key.
Qed.

Lemma for_each_load_entries (cutoff t : Z) (ks : list key) :
  ∀ valid, for_each (load_entry cutoff) (entry_of t <$> ks) valid =
    Ok ((if cutoff <=? t then list_to_set (filter truthy_key ks) else ∅) ∪ valid).
Proof.
  induction ks as [|k ks IH]; intros valid.
  - simpl. f_equal. destruct (cutoff <=? t); set_solver.
  - rewrite fmap_cons. cbn [for_each].
    rewrite load_entry_entry_of, IH. f_equal.
    rewrite filter_cons. unfold truthy_key at 2.
    destruct (decide (truthy (json_of_key k) = true)) as [Hk|Hk].
    + rewrite Hk. simpl. destruct (cutoff <=? t); set_solver.
    + apply not_true_is_false in Hk. rewrite Hk. simpl. done.
Qed.

(** The set a fresh tracker holds after a successful save at time [t]:
    the truthy elements when the load is at most 30 days later, nothing
    beyond that or when the clock reading is out of range. *)
Lemma init_after_save (t : Z) (rm : bool) (now : Z) (e : save_env) (w : world) :
  seen_prs (exec (PRTracker_init now e)
              (exec (save_seen_prs (SaveEnv t NoFault rm)) w)) =
    match minus_days now 30 with
    | Ok cutoff =>
        if cutoff <=? t then filter truthy_key (seen_prs w) else ∅
    | Raise _ => ∅
    end.
Proof.
  unfold exec at 2. rewrite save_seen_prs_after. simpl.
  unfold after_save. simpl. unfold exec, PRTracker_init, load_seen_prs, load_body.
  py_unfold. simpl.
  destruct (minus_days now 30) as [cutoff|x]; simpl; [|done].
  rewrite for_each_load_entries.
  set (valid := ((if cutoff <=? t then _ else _) ∪ ∅ : gset key)).
  assert (Hvalid : valid = if cutoff <=? t then filter truthy_key (seen_prs w) else ∅).
  { unfold valid. destruct (cutoff <=? t); [|set_solver].
    apply set_eq. intros k.
    rewrite elem_of_union, elem_of_list_to_set, list_elem_of_filter,
      elem_of_filter, elem_of_elements. set_solver. }
  destruct (negb _); simpl; [|done].
  rewrite save_seen_prs_after. simpl. by rewrite after_save_seen.
Qed.

(** A store of non-zero integer identifiers survives the round trip when
    the tracker is constructed at most 30 days after the save. *)
Lemma round_trip_nonzero (t : Z) (rm : bool) (now : Z) (e : save_env) (w : world) :
  datetime_min + 30 * day ≤ now ≤ datetime_max →
  now - t ≤ 30 * day →
  (∀ k, k ∈ seen_prs w → ∃ i, k = KInt i ∧ i ≠ 0) →
  seen_prs (exec (PRTracker_init now e)
              (exec (save_seen_prs (SaveEnv t NoFault rm)) w)) = seen_prs w.
Proof.
  intros Hnow Hage Hks. rewrite init_after_save.
  rewrite minus_days_in_range;
    [|unfold timedelta_max_days; lia|unfold datetime_max, datetime_min, day in *; lia].
  destruct (Z.leb_spec (now - 30 * day) t); [|lia].
  apply set_eq. intros k. rewrite elem_of_filter. split; [by intros [_ ?]|].
  intros Hk. split; [|done].
  destruct (Hks k Hk) as (i & -> & Hi). unfold truthy_key. simpl.
  by destruct (Z.eqb_spec i 0).
Qed.

(** C2 fails on identifier 0: the store holding 0 and 101 is saved at
    time 0 without fault, and a tracker constructed at that same instant
    from the same backing file holds 101 only. *)
Lemma round_trip_loses_zero :
  let w := World {[KInt 0; KInt 101]} None None in
  let w1 := exec (save_seen_prs (SaveEnv 0 NoFault false)) w in
  let w2 := exec (PRTracker_init 0 (SaveEnv 0 NoFault false)) w1 in
  durable_timestamps 0 w1 = [0] ∧
  has_seen_pr 0 w = true ∧ get_seen_count w = 2%nat ∧
  has_seen_pr 0 w2 = false ∧ get_seen_count w2 = 1%nat ∧
  has_seen_pr 101 w2 = true.
Proof. vm_compute. done. Qed.

(** ** Records that leave nothing in the set *)



(** An object whose [timestamp] is not a timestamp adds nothing: the
    iteration leaves [valid_prs] as it was, or (for a truthy value that
    is not a string) raises [AttributeError], which empties the set. *)
Lemma load_entry_without_stamp (cutoff : Z) (v : gset key)
    (kv : list (string * json)) :
  (∀ t, dict_lookup kv "timestamp" ≠ Some (JStr (Stamp t))) →
  load_entry cutoff v (JObj kv) = Ok v ∨
  load_entry cutoff v (JObj kv) = Raise AttributeError.
Proof.
  intros Hts. unfold load_entry, dict_get.
  destruct (truthy (default JNull (dict_lookup kv "id"))); simpl; [|by left].
  destruct (dict_lookup kv "timestamp") as [[|b|n|[s|t]|l|items]|]; simpl;
    try (by left).
  - destruct b; [by right|by left].
  - destruct (negb (n =? 0)); [by right|by left].
  - destruct (negb (String.eqb s "")); by left.
  - by destruct (Hts t).
  - destruct l; [by left|by right].
  - destruct items; [by left|by right].
Qed.

Lemma load_seen_prs_failure_empty (now : Z) (e : save_env) (w : world) :
  raises (load_body now e) w = true →
  seen_prs (exec (load_seen_prs now e) w) = ∅.
Proof.
  unfold raises, exec, load_seen_prs, try_except.
  by destruct (load_body now e w) as [[a|x] w'].
Qed.



(** ** Timestamps of the durable copy *)

Lemma stamp_for_entry_of (i t : Z) (k : key) :
  stamp_for i (entry_of t k) = if bool_decide (k = KInt i) then Some t else None.
Proof.
  unfold stamp_for, entry_of, dict_get. simpl.
  rewrite hash_key_json_of_key.
  destruct k as [|n|s]; simpl; try done.
  destruct (decide (n = i)) as [->|Hne].
  - by rewrite !bool_decide_eq_true_2.
  - rewrite !bool_decide_eq_false_2; [done|congruence|done].
Qed.

Lemma stamps_of_entries (i t : Z) (ks : list key) :
  NoDup ks →
  omap (stamp_for i) (entry_of t <$> ks) =
    if bool_decide (KInt i ∈ ks) then [t] else [].
Proof.
  induction 1 as [|k ks Hk _ IH].
  - done.
  - rewrite fmap_cons. cbn [omap list_omap].
    change (list_omap _ _ (stamp_for i) (entry_of t <$> ks))
      with (omap (stamp_for i) (entry_of t <$> ks)).
    rewrite stamp_for_entry_of, IH.
    destruct (decide (k = KInt i)) as [->|Hne].
    + rewrite bool_decide_eq_true_2 by done.
      rewrite (bool_decide_eq_false_2 (KInt i ∈ ks)) by done.
      rewrite bool_decide_eq_true_2; [done|]. by left.
    + rewrite (bool_decide_eq_false_2 (k = KInt i)) by done.
      apply (f_equal (λ b : bool, if b then [t] else [])).
      apply bool_decide_ext. rewrite elem_of_cons. naive_solver.
Qed.

Lemma durable_timestamps_after_save (i t : Z) (rm : bool) (w : world) :
  durable_timestamps i (exec (save_seen_prs (SaveEnv t NoFault rm)) w) =
    if has_seen_pr i w then [t] else [].
Proof.
  unfold exec. rewrite save_seen_prs_after.
  unfold durable_timestamps, durable_prs, after_save. simpl.
  rewrite stamps_of_entries by apply NoDup_elements.
  unfold has_seen_pr.
  apply (f_equal (λ b : bool, if b then [t] else [])).
  apply bool_decide_ext, elem_of_elements.
Qed.







(** ** Bare integers *)

Lemma set_add_grows (x : json) (v v' : gset key) :
  set_add x v = Ok v' → v ⊆ v'.
Proof.
  unfold set_add. destruct (hash_key x) as [k|]; [|done].
  intros [= <-]. set_solver.
Qed.

Lemma load_entry_grows (cutoff : Z) (v : gset key) (entry : json) (v' : gset key) :
  load_entry cutoff v entry = Ok v' → v ⊆ v'.
Proof.
  unfold load_entry.
  destruct entry as [|b|n|s|l|kv]; try (by intros [= <-]);
    try apply set_add_grows.
  destruct (truthy _ && truthy _); [|by intros [= <-]].
  destruct (parse_timestamp _) as [[t|]|]; try done; [|by intros [= <-]].
  destruct (cutoff <=? t); [apply set_add_grows|by intros [= <-]].
Qed.

Lemma cleanup_entry_grows (cutoff : Z) (v : gset key) (entry : json) (v' : gset key) :
  cleanup_entry cutoff v entry = Ok v' → v ⊆ v'.
Proof.
  unfold cleanup_entry.
  destruct entry as [|b|n|s|l|kv]; try (by intros [= <-]);
    try apply set_add_grows.
  destruct (truthy _); [|by intros [= <-]].
  destruct (parse_timestamp _) as [[t|]|]; try done; [|by intros [= <-]].
  destruct (cutoff <=? t); [|by intros [= <-]].
  destruct (dict_lookup kv "id"); [apply set_add_grows|done].
Qed.

Section for_each_bare.

Variable body : gset key → json → result (gset key).
Hypothesis body_grows : ∀ v entry v', body v entry = Ok v' → v ⊆ v'.
Hypothesis body_bare : ∀ v n, body v (JInt n) = Ok ({[KInt n]} ∪ v).

Lemma for_each_grows (l : list json) :
  ∀ v v', for_each body l v = Ok v' → v ⊆ v'.
Proof.
  induction l as [|x l IH]; intros v v'; simpl.
  - by intros [= <-].
  - destruct (body v x) as [v1|] eqn:Hx; [|done].
    intros Hl. etrans; [by eapply body_grows|by apply IH].
Qed.

Lemma for_each_keeps_bare (l : list json) (n : Z) :
  JInt n ∈ l → ∀ v v', for_each body l v = Ok v' → KInt n ∈ v'.
Proof.
  induction l as [|x l IH]; intros Hn v v'; [by apply elem_of_nil in Hn|].
  apply elem_of_cons in Hn as [<-|Hn]; simpl.
  - rewrite body_bare. intros Hl. apply for_each_grows in Hl. set_solver.
  - destruct (body v x) as [v1|]; [|done]. by apply IH.
Qed.

End for_each_bare.

Lemma load_body_keeps_bare (now : Z) (e : save_env) (w : world)
    (kv : list (string * json)) (l : list json) (n : Z) :
  storage_file w = Some (Doc (JObj kv)) →
  dict_lookup kv "prs" = Some (JArr l) →
  JInt n ∈ l →
  raises (load_body now e) w = false →
  KInt n ∈ seen_prs (exec (load_seen_prs now e) w).
Proof.
  intros Hst Hprs Hn.
  unfold load_seen_prs, load_body, json_load. py_unfold.
  rewrite Hst. simpl. rewrite Hst. simpl.
  destruct (minus_days now 30) as [cutoff|]; simpl; [|done].
  rewrite Hprs. simpl.
  destruct (for_each (load_entry cutoff) l ∅) as [valid|] eqn:Hl; simpl; [|done].
  assert (Hin : KInt n ∈ valid).
  { eapply (for_each_keeps_bare (load_entry cutoff)); [| |done|done].
    - apply load_entry_grows.
    - done. }
  destruct (negb _); simpl; [|done].
  rewrite save_seen_prs_after. simpl. by rewrite after_save_seen.
Qed.

Lemma cleanup_body_keeps_bare (days now : Z) (e : save_env) (w : world)
    (kv : list (string * json)) (l : list json) (n : Z) :
  storage_file w = Some (Doc (JObj kv)) →
  dict_lookup kv "prs" = Some (JArr l) →
  JInt n ∈ l →
  raises (cleanup_body days now e) w = false →
  KInt n ∈ seen_prs (exec (cleanup_old_entries days now e) w).
Proof.
  intros Hst Hprs Hn.
  unfold cleanup_old_entries, cleanup_body, json_load. py_unfold.
  rewrite Hst. simpl. rewrite Hst. simpl.
  destruct (minus_days now days) as [cutoff|]; simpl; [|done].
  rewrite Hprs. simpl.
  destruct (for_each (cleanup_entry cutoff) l ∅) as [valid|] eqn:Hl; simpl; [|done].
  assert (Hin : KInt n ∈ valid).
  { eapply (for_each_keeps_bare (cleanup_entry cutoff)); [| |done|done].
    - apply cleanup_entry_grows.
    - done. }
  rewrite save_seen_prs_after. simpl. by rewrite after_save_seen.
Qed.

Lemma no_bare_after_save (t : Z) (rm : bool) (w : world) (m : Z) :
  JInt m ∉ durable_prs (exec (save_seen_prs (SaveEnv t NoFault rm)) w).
Proof.
  unfold exec. rewrite save_seen_prs_after.
  unfold durable_prs, after_save. simpl.
  rewrite list_elem_of_fmap. by intros (k & Hk & _).
Qed.

Lemma durable_prs_after_save (t : Z) (rm : bool) (w : world) :
  Forall
    (λ entry, ∃ x, entry = JObj [("id"%string, x);
                                 ("timestamp"%string, JStr (Stamp t))])
    (durable_prs (exec (save_seen_prs (SaveEnv t NoFault rm)) w)).
Proof.
  unfold exec. rewrite save_seen_prs_after.
  unfold durable_prs, after_save. simpl.
  apply Forall_fmap, Forall_forall. intros k _. by exists (json_of_key k).
Qed.

(** C8 (as amended). A bare integer of the backing file is in the set
    after [load_seen_prs] whenever the body of that call runs to the
    end, and after [cleanup_old_entries] whenever the body of that call
    runs to the end, whatever the time of the call and the number of
    days: no timestamp is consulted for it.  A successful save writes no
    bare integer: every entry it writes is an [{id, timestamp}] record
    stamped with the time of the save, the identifier that was loaded
    from a bare integer included, and the next load judges it by that
    timestamp. *)
Theorem bare_records_are_kept (days now : Z) (e : save_env) (w : world)
    (kv : list (string * json)) (l : list json) (n : Z)
    (Hfile : storage_file w = Some (Doc (JObj kv)))
    (Hprs : dict_lookup kv "prs" = Some (JArr l))
    (Hn : JInt n ∈ l) :
  (raises (load_body now e) w = false →
     has_seen_pr n (exec (load_seen_prs now e) w) = true) ∧
  (raises (cleanup_body days now e) w = false →
     has_seen_pr n (exec (cleanup_old_entries days now e) w) = true) ∧
  (∀ t rm m, JInt m ∉ durable_prs (exec (save_seen_prs (SaveEnv t NoFault rm)) w)) ∧
  (∀ t rm,
     Forall
       (λ entry, ∃ x, entry = JObj [("id"%string, x);
                                    ("timestamp"%string, JStr (Stamp t))])
       (durable_prs (exec (save_seen_prs (SaveEnv t NoFault rm)) w))) ∧
  (raises (load_body now e) w = false →
     ∀ t rm,
       durable_timestamps n
         (exec (save_seen_prs (SaveEnv t NoFault rm))
            (exec (load_seen_prs now e) w)) = [t]).
Proof.
  split_and!.
  - intros Hload. apply bool_decide_eq_true.
    by apply (load_body_keeps_bare now e w kv l n).
  - intros Hclean. apply bool_decide_eq_true.
    by apply (cleanup_body_keeps_bare days now e w kv l n).
  - intros. apply no_bare_after_save.
  - intros. apply durable_prs_after_save.
  - intros Hload t rm. rewrite durable_timestamps_after_save.
    unfold has_seen_pr. rewrite bool_decide_eq_true_2; [done|].
    by apply (load_body_keeps_bare now e w kv l n).
Qed.

Lemma bare_records_are_kept_witness :
  let e := SaveEnv (100 * day) NoFault false in
  has_seen_pr 7 (exec (load_seen_prs (100 * day) e) scenario_world) = true ∧
  has_seen_pr 7 (exec (cleanup_old_entries 1 (100 * day) e) scenario_world) = true ∧
  (∀ t rm,
     durable_timestamps 7
       (exec (save_seen_prs (SaveEnv t NoFault rm))
          (exec (load_seen_prs (100 * day) e) scenario_world)) = [t]).
Proof.
  intros e.
  assert (Hn : JInt 7 ∈ scenario_prs).
  { unfold scenario_prs. apply list_elem_of_In. simpl. tauto. }
  destruct (bare_records_are_kept 1 (100 * day) e scenario_world
              scenario_items scenario_prs 7 eq_refl eq_refl Hn)
    as (Hload & Hclean & _ & _ & Hstamp).
  split_and!.
  - apply Hload. vm_compute. reflexivity.
  - apply Hclean. vm_compute. reflexivity.
  - apply Hstamp. vm_compute. reflexivity.
Defined.

(** C8 (as stated) fails: the backing file holds the bare integer 7; the
    tracker loads it and marks 8, which saves 7 as a record stamped with
    that moment; a tracker constructed 31 days later drops 7 as expired. *)
Lemma bare_record_expires_after_save :
  let file := Doc (JObj [("prs"%string, JArr [JInt 7])]) in
  let e := SaveEnv 0 NoFault false in
  let w0 := exec (PRTracker_init 0 e) (World ∅ (Some file) None) in
  let w1 := exec (mark_pr_as_seen 8 e) w0 in
  let w2 := exec (PRTracker_init (31 * day) (SaveEnv (31 * day) NoFault false)) w1 in
  durable_prs w0 = [JInt 7] ∧ has_seen_pr 7 w0 = true ∧
  durable_timestamps 7 w1 = [0] ∧ has_seen_pr 7 w2 = false.
Proof. vm_compute. done. Qed.

(** ** Scenarios *)

(** Empty store: after [mark_pr_as_seen 101] the identifier is seen and
    the count is 1; after a second call the count is still 1. *)
Example scenario_mark_101 :
  let w1 := exec (mark_pr_as_seen 101 (SaveEnv 0 NoFault false)) (World ∅ None None) in
  let w2 := exec (mark_pr_as_seen 101 (SaveEnv 1 NoFault false)) w1 in
  has_seen_pr 101 w1 = true ∧ get_seen_count w1 = 1%nat ∧ get_seen_count w2 = 1%nat.
Proof. vm_compute. done. Qed.

(** The backing file with 5 (40 days old), 6 (2 days old) and a bare 7:
    after the load 5 is not seen, 6 and 7 are, and the file is rewritten
    with 6 and 7 only. *)
Example scenario_load_prunes :
  let now := 100 * day in
  let w := exec (PRTracker_init now (SaveEnv now NoFault false)) scenario_world in
  has_seen_pr 5 w = false ∧ has_seen_pr 6 w = true ∧ has_seen_pr 7 w = true ∧
  durable_prs w = [entry_of now (KInt 7); entry_of now (KInt 6)].
Proof. vm_compute. done. Qed.

(** A timestamp that is not a string makes the whole load fail: the set
    is left empty, the bare integer 7 included. *)
Example scenario_numeric_timestamp :
  let file :=
    Doc (JObj [("prs"%string,
                JArr [JInt 7;
                      JObj [("id"%string, JInt 1); ("timestamp"%string, JInt 5)]])]) in
  let w := exec (PRTracker_init 0 (SaveEnv 0 NoFault false)) (World ∅ (Some file) None) in
  raises (load_body 0 (SaveEnv 0 NoFault false)) (World ∅ (Some file) None) = true ∧
  get_seen_count w = 0%nat.
Proof. vm_compute. done. Qed.

(** The two calls fail independently: on a bare 7 followed by a record
    with identifier 0 and a numeric timestamp, the load skips the record
    and keeps 7, while the cleanup raises on the timestamp and leaves the
    set it was given. *)
Example scenario_load_runs_cleanup_raises :
  let file :=
    Doc (JObj [("prs"%string,
                JArr [JInt 7;
                      JObj [("id"%string, JInt 0); ("timestamp"%string, JInt 5)]])]) in
  let e := SaveEnv 0 NoFault false in
  let w := World ∅ (Some file) None in
  raises (load_body 0 e) w = false ∧
  has_seen_pr 7 (exec (load_seen_prs 0 e) w) = true ∧
  raises (cleanup_body 30 0 e) w = true ∧
  exec (cleanup_old_entries 30 0 e) w = w.
Proof. vm_compute. done. Qed.

(** The legacy branch and [cleanup_old_entries] keep identifier 0;
    only the timestamped branch of [load_seen_prs] drops it. *)
Example scenario_zero_elsewhere :
  let e := SaveEnv 0 NoFault false in
  let w1 := exec (save_seen_prs e) (World {[KInt 0]} None None) in
  let legacy := World ∅ (Some (Doc (JObj [("prs"%string, JArr [JInt 0])]))) None in
  has_seen_pr 0 (exec (cleanup_old_entries 30 0 e) w1) = true ∧
  has_seen_pr 0 (exec (PRTracker_init 0 e) legacy) = true ∧
  has_seen_pr 0 (exec (PRTracker_init 0 e) w1) = false.
Proof. vm_compute. done. Qed.

(** * Further properties of the tracker *)

(** ** save_seen_prs *)

(** X1. [save_seen_prs] returns without raising under every fault and
    leaves the set as it was.  The backing file afterwards holds either
    what it held before or the complete document of the set, never a
    partly written one; and when [os.remove] succeeds no temporary file
    is left, a stale one from an earlier run included. *)
Theorem save_seen_prs_safe (t : Z) (f : save_fault) (rm : bool) (w : world) :
  let w' := exec (save_seen_prs (SaveEnv t f rm)) w in
  raises (save_seen_prs (SaveEnv t f rm)) w = false ∧
  seen_prs w' = seen_prs w ∧
  (storage_file w' = storage_file w ∨
   storage_file w' = Some (Doc (document t (seen_prs w)))) ∧
  temp_file (exec (save_seen_prs (SaveEnv t f false)) w) = None.
Proof.
  intros w'. unfold w', exec, raises. rewrite !save_seen_prs_after. simpl.
  split_and!.
  - done.
  - apply after_save_seen.
  - rewrite after_save_storage. simpl. destruct f; auto.
  - by destruct f.
Qed.

(** ** load_seen_prs and the constructor *)

Lemma load_body_raise_keeps_world (now : Z) (e : save_env) (w : world) :
  raises (load_body now e) w = true → (load_body now e w).2 = w.
Proof.
  unfold raises, load_body, json_load. py_unfold.
  destruct w as [s [[|j]|] tmp]; simpl; try done.
  destruct (minus_days now 30) as [cutoff|]; simpl; [|done].
  destruct (get_prs j) as [prs|]; simpl; [|done].
  destruct (scan (load_entry cutoff) prs) as [[valid differs]|]; simpl; [|done].
  destruct differs; [|done].
  by rewrite save_seen_prs_after.
Qed.

(** X2. On a first run (no backing file) and on a backing file the load
    fails on, the constructor gives a tracker with the empty set and
    leaves both files exactly as they were: it creates no file and does
    not overwrite or repair an unreadable one. *)
Theorem PRTracker_init_without_usable_file (now : Z) (e : save_env) (w : world)
    (Hfile : storage_file w = None ∨
             raises (load_body now e) (set_seen ∅ w) = true) :
  PRTracker_init now e w = (Ok tt, set_seen ∅ w).
Proof.
  unfold PRTracker_init, load_seen_prs. py_unfold.
  destruct Hfile as [Hnone|Hraise].
  - unfold load_body. py_unfold. simpl. by rewrite Hnone.
  - pose proof (load_body_raise_keeps_world now e _ Hraise) as Hw.
    unfold raises in Hraise.
    destruct (load_body now e (set_seen ∅ w)) as [[a|x] w']; [done|].
    simpl in Hw. by subst w'.
Qed.

Lemma PRTracker_init_without_usable_file_witness :
  let w := World {[KInt 3]} (Some (Doc (JArr [JInt 7]))) (Some Corrupt) in
  PRTracker_init 0 (SaveEnv 0 NoFault false) w = (Ok tt, set_seen ∅ w).
Proof.
  apply (PRTracker_init_without_usable_file 0 (SaveEnv 0 NoFault false)
           (World {[KInt 3]} (Some (Doc (JArr [JInt 7]))) (Some Corrupt))).
  right. vm_compute. reflexivity.
Defined.

(** X3. A backing file of records that are all kept and whose
    identifiers are pairwise distinct is loaded without any write: the
    files are as before, so a restart does not refresh the timestamps. *)
Theorem load_seen_prs_clean_file (now : Z) (e : save_env) (w : world)
    (kv : list (string * json)) (l : list json) (rs : list record)
    (Hnow : datetime_min + 30 * day ≤ now ≤ datetime_max)
    (Hfile : storage_file w = Some (Doc (JObj kv)))
    (Hprs : dict_lookup kv "prs" = Some (JArr l))
    (Hrs : mapM record_of l = Some rs)
    (Hkept : Forall (λ r, is_Some (kept (now - 30 * day) r)) rs)
    (Hdistinct : NoDup (omap (kept (now - 30 * day)) rs)) :
  load_seen_prs now e w =
    (Ok tt, set_seen (list_to_set (omap (kept (now - 30 * day)) rs)) w).
Proof.
  rewrite (load_seen_prs_records now e w kv l rs Hnow Hfile Hprs Hrs).
  rewrite bool_decide_eq_true_2; [done|].
  rewrite size_list_to_set by done.
  apply mapM_Some_1, Forall2_length in Hrs. rewrite Hrs.
  clear -Hkept. induction Hkept as [|r rs [k Hk] _ IH]; csimpl; [done|].
  rewrite Hk. csimpl. by rewrite IH.
Qed.

Lemma load_seen_prs_clean_file_witness :
  let prs := [entry_of (98 * day) (KInt 6); JInt 7] in
  let kv := [("prs"%string, JArr prs)] in
  let w := World ∅ (Some (Doc (JObj kv))) None in
  load_seen_prs (100 * day) (SaveEnv (100 * day) NoFault false) w =
    (Ok tt, set_seen (list_to_set (omap (kept (100 * day - 30 * day))
                                     [Timed 6 (98 * day); Bare 7])) w).
Proof.
  apply (load_seen_prs_clean_file (100 * day) (SaveEnv (100 * day) NoFault false)
           (World ∅ (Some (Doc (JObj [("prs"%string,
              JArr [entry_of (98 * day) (KInt 6); JInt 7])]))) None)
           [("prs"%string, JArr [entry_of (98 * day) (KInt 6); JInt 7])]
           [entry_of (98 * day) (KInt 6); JInt 7]
           [Timed 6 (98 * day); Bare 7]).
  - vm_compute. split; discriminate.
  - reflexivity.
  - reflexivity.
  - reflexivity.
  - repeat constructor; vm_compute; eauto.
  - vm_compute. repeat constructor; set_solver.
Defined.

(** ** A save followed by a restart *)

(** X4. A tracker constructed at most 30 days after a successful save
    holds exactly the truthy elements of the saved set: every non-zero
    integer and every non-empty string, but not 0, [None] or the empty
    string. *)
Theorem round_trip_within_window
    (t : Z) (rm : bool) (now : Z) (e : save_env) (w : world)
    (Hnow : datetime_min + 30 * day ≤ now ≤ datetime_max)
    (Hage : now - t ≤ 30 * day) :
  seen_prs (exec (PRTracker_init now e)
              (exec (save_seen_prs (SaveEnv t NoFault rm)) w)) =
    filter truthy_key (seen_prs w).
Proof.
  rewrite init_after_save.
  rewrite minus_days_in_range;
    [|unfold timedelta_max_days; lia|unfold datetime_max, datetime_min, day in *; lia].
  by destruct (Z.leb_spec (now - 30 * day) t); [|lia].
Qed.

Lemma round_trip_within_window_witness :
  let w := World {[KInt 0; KInt 101; KStr (Text "x")]} None None in
  seen_prs (exec (PRTracker_init (30 * day) (SaveEnv (30 * day) NoFault false))
              (exec (save_seen_prs (SaveEnv 0 NoFault false)) w)) =
    filter truthy_key (seen_prs w).
Proof.
  apply (round_trip_within_window 0 false (30 * day)
           (SaveEnv (30 * day) NoFault false)
           (World {[KInt 0; KInt 101; KStr (Text "x")]} None None)).
  - vm_compute. split; discriminate.
  - vm_compute. discriminate.
Defined.

(** X5. A tracker constructed more than 30 days after the last
    successful save starts with the empty set, whatever was saved. *)
Theorem restart_after_window
    (t : Z) (rm : bool) (now : Z) (e : save_env) (w : world)
    (Hnow : datetime_min + 30 * day ≤ now ≤ datetime_max)
    (Hage : 30 * day < now - t) :
  seen_prs (exec (PRTracker_init now e)
              (exec (save_seen_prs (SaveEnv t NoFault rm)) w)) = ∅.
Proof.
  rewrite init_after_save.
  rewrite minus_days_in_range;
    [|unfold timedelta_max_days; lia|unfold datetime_max, datetime_min, day in *; lia].
  by destruct (Z.leb_spec (now - 30 * day) t); [lia|].
Qed.

Lemma restart_after_window_witness :
  seen_prs (exec (PRTracker_init (31 * day) (SaveEnv (31 * day) NoFault false))
              (exec (save_seen_prs (SaveEnv 0 NoFault false))
                 (World {[KInt 101]} None None))) = ∅.
Proof.
  apply (restart_after_window 0 false (31 * day)
           (SaveEnv (31 * day) NoFault false) (World {[KInt 101]} None None)).
  - vm_compute. split; discriminate.
  - vm_compute. reflexivity.
Defined.

(** ** mark_pr_as_seen on other identifiers *)

Lemma mark_pr_as_seen_returns (j : Z) (e : save_env) (w : world) :
  mark_pr_as_seen j e w = (Ok tt, exec (mark_pr_as_seen j e) w).
Proof.
  unfold exec. rewrite mark_pr_as_seen_cases. by destruct (has_seen_pr j w).
Qed.

Lemma has_seen_pr_mark (i j : Z) (e : save_env) (w : world) :
  has_seen_pr i (exec (mark_pr_as_seen j e) w) =
    has_seen_pr i w || bool_decide (i = j).
Proof.
  unfold exec. rewrite mark_pr_as_seen_cases.
  destruct (has_seen_pr j w) eqn:Hj; simpl.
  - destruct (decide (i = j)) as [->|Hne].
    + by rewrite Hj.
    + by rewrite (bool_decide_eq_false_2 (i = j)), orb_false_r.
  - unfold has_seen_pr. rewrite after_save_seen. simpl.
    rewrite <- bool_decide_or. apply bool_decide_ext. set_solver.
Qed.

(** X6. [mark_pr_as_seen j] never raises, makes [j] seen and changes
    the answer of [has_seen_pr] for no other identifier; the count grows
    by one when [j] is new and stays otherwise.  This holds whether or
    not the save succeeds. *)
Theorem mark_pr_as_seen_frame (i j : Z) (e : save_env) (w : world) :
  let w' := exec (mark_pr_as_seen j e) w in
  raises (mark_pr_as_seen j e) w = false ∧
  has_seen_pr i w' = has_seen_pr i w || bool_decide (i = j) ∧
  get_seen_count w' =
    (if has_seen_pr j w then get_seen_count w else S (get_seen_count w)).
Proof.
  intros w'. split_and!.
  - unfold raises. by rewrite mark_pr_as_seen_returns.
  - apply has_seen_pr_mark.
  - unfold w', exec. rewrite mark_pr_as_seen_cases.
    destruct (has_seen_pr j w) eqn:Hj; simpl; [done|].
    unfold get_seen_count. rewrite after_save_seen. simpl.
    apply get_seen_count_add.
    unfold has_seen_pr in Hj. by apply bool_decide_eq_false in Hj.
Qed.

(** ** A failed persist and a restart *)

Lemma load_seen_prs_reads_storage (now : Z) (e : save_env) (w1 w2 : world) :
  storage_file w1 = storage_file w2 →
  seen_prs w1 = seen_prs w2 →
  seen_prs (exec (load_seen_prs now e) w1) =
    seen_prs (exec (load_seen_prs now e) w2).
Proof.
  destruct w1 as [s1 st1 tmp1], w2 as [s2 st2 tmp2]. simpl.
  intros <- <-.
  unfold exec, load_seen_prs, load_body, json_load. py_unfold. simpl.
  destruct st1 as [[|j]|]; simpl; try done.
  destruct (minus_days now 30) as [cutoff|]; simpl; [|done].
  destruct (get_prs j) as [prs|]; simpl; [|done].
  destruct (scan (load_entry cutoff) prs) as [[valid differs]|]; simpl; [|done].
  destruct differs; [|done].
  rewrite !save_seen_prs_after. simpl. by rewrite !after_save_seen.
Qed.

(** X7. When the save inside [mark_pr_as_seen] fails, the backing file
    is as before, so a tracker constructed afterwards holds exactly what
    it would have held had the call not been made: the identifier is
    seen only for the rest of the running process. *)
Theorem failed_persist_lost_on_restart
    (pr_id t : Z) (f : save_fault) (rm : bool) (now : Z) (e : save_env)
    (w : world) (Hf : f ≠ NoFault) :
  let w' := exec (mark_pr_as_seen pr_id (SaveEnv t f rm)) w in
  has_seen_pr pr_id w' = true ∧
  storage_file w' = storage_file w ∧
  seen_prs (exec (PRTracker_init now e) w') =
    seen_prs (exec (PRTracker_init now e) w).
Proof.
  intros w'.
  assert (Hst : storage_file w' = storage_file w).
  { unfold w', exec. rewrite mark_pr_as_seen_cases.
    destruct (has_seen_pr pr_id w); simpl; [done|].
    rewrite after_save_storage. by destruct f. }
  split_and!.
  - apply has_seen_pr_after_mark.
  - done.
  - unfold PRTracker_init, exec. py_unfold. simpl.
    by apply load_seen_prs_reads_storage.
Qed.

Lemma failed_persist_lost_on_restart_witness :
  let w := World ∅ None None in
  let w' := exec (mark_pr_as_seen 5 (SaveEnv 0 RenameFails false)) w in
  has_seen_pr 5 w' = true ∧
  storage_file w' = storage_file w ∧
  seen_prs (exec (PRTracker_init 1 (SaveEnv 1 NoFault false)) w') =
    seen_prs (exec (PRTracker_init 1 (SaveEnv 1 NoFault false)) w).
Proof.
  apply (failed_persist_lost_on_restart 5 0 RenameFails false 1
           (SaveEnv 1 NoFault false) (World ∅ None None)).
  discriminate.
Defined.

(** ** cleanup_old_entries *)

Lemma cleanup_body_raise_keeps_world (days now : Z) (e : save_env) (w : world) :
  raises (cleanup_body days now e) w = true → (cleanup_body days now e w).2 = w.
Proof.
  unfold raises, cleanup_body, json_load. py_unfold.
  destruct w as [s [[|j]|] tmp]; simpl; try done.
  destruct (minus_days now days) as [cutoff|]; simpl; [|done].
  destruct (get_prs j) as [prs|]; simpl; [|done].
  destruct (scan (cleanup_entry cutoff) prs) as [[valid differs]|]; simpl; [|done].
  by rewrite save_seen_prs_after.
Qed.

(** X8. When there is no backing file, or the body of
    [cleanup_old_entries] fails (unparsable file, a number of days out of
    range, a live record without [id]), the call returns without raising
    and changes nothing: the set and both files are as before.  Unlike
    [load_seen_prs] it does not empty the set on failure. *)
Theorem cleanup_old_entries_failure (days now : Z) (e : save_env) (w : world)
    (Hfail : storage_file w = None ∨
             raises (cleanup_body days now e) w = true) :
  cleanup_old_entries days now e w = (Ok tt, w).
Proof.
  unfold cleanup_old_entries. py_unfold.
  destruct Hfail as [Hnone|Hraise].
  - unfold cleanup_body. py_unfold. simpl. by rewrite Hnone.
  - pose proof (cleanup_body_raise_keeps_world days now e w Hraise) as Hw.
    unfold raises in Hraise.
    destruct (cleanup_body days now e w) as [[a|x] w']; [done|].
    simpl in Hw. by subst w'.
Qed.

Lemma cleanup_old_entries_failure_witness :
  let w := World {[KInt 3]} (Some (Doc (JObj [("prs"%string, JArr [JInt 7])]))) None in
  cleanup_old_entries 1000000000 0 (SaveEnv 0 NoFault false) w = (Ok tt, w).
Proof.
  apply (cleanup_old_entries_failure 1000000000 0 (SaveEnv 0 NoFault false)
           (World {[KInt 3]}
              (Some (Doc (JObj [("prs"%string, JArr [JInt 7])]))) None)).
  right. vm_compute. reflexivity.
Defined.

Lemma cleanup_entry_record (cutoff : Z) (valid : gset key) (entry : json) (r : record) :
  record_of entry = Some r →
  cleanup_entry cutoff valid entry =
    Ok (match kept_by_cleanup cutoff r with
        | Some k => {[k]} ∪ valid
        | None => valid
        end).
Proof.
  destruct entry as [| |n|s|l|kv]; simpl; try done.
  - by intros [= <-].
  - unfold dict_get.
    destruct (dict_lookup kv "id") as [[| |i| | |]|]; try done.
    destruct (dict_lookup kv "timestamp") as [[| | |[s|t]| |]|]; try done.
    intros [= <-]. simpl. by destruct (cutoff <=? t).
Qed.

Lemma for_each_cleanup_records (cutoff : Z) (l : list json) (rs : list record) :
  Forall2 (λ x y, record_of x = Some y) l rs →
  ∀ valid, for_each (cleanup_entry cutoff) l valid =
             Ok (list_to_set (omap (kept_by_cleanup cutoff) rs) ∪ valid).
Proof.
  induction 1 as [|x y l rs Hxy _ IH]; intros valid; simpl.
  - f_equal. set_solver.
  - rewrite (cleanup_entry_record _ _ _ _ Hxy).
    destruct (kept_by_cleanup cutoff y) as [k|]; rewrite IH; csimpl; f_equal;
      set_solver.
Qed.

Lemma cleanup_old_entries_on_records (days now : Z) (e : save_env) (w : world)
    (kv : list (string * json)) (l : list json) (rs : list record) :
  - timedelta_max_days ≤ days ≤ timedelta_max_days →
  datetime_min ≤ now - days * day ≤ datetime_max →
  storage_file w = Some (Doc (JObj kv)) →
  dict_lookup kv "prs" = Some (JArr l) →
  mapM record_of l = Some rs →
  cleanup_old_entries days now e w =
    save_seen_prs e
      (set_seen (list_to_set (omap (kept_by_cleanup (now - days * day)) rs)) w).
Proof.
  intros Hdays Hcut Hst Hprs Hrs. apply mapM_Some_1 in Hrs.
  unfold cleanup_old_entries, cleanup_body, json_load. py_unfold.
  rewrite Hst. simpl. rewrite Hst. simpl.
  rewrite minus_days_in_range by done. simpl. rewrite Hprs. simpl.
  rewrite (for_each_cleanup_records _ _ _ Hrs). simpl.
  rewrite !save_seen_prs_after. do 3 f_equal. set_solver.
Qed.

(** X9. On a backing file whose [prs] is a list of bare integers and
    [{id, timestamp}] records, [cleanup_old_entries days] replaces the set
    by what the file holds: an identifier is seen afterwards exactly when
    it is a bare integer of the file or has a record at most [days] days
    old (0 included, unlike at load); identifiers that were only in
    memory are forgotten.  It then saves: without fault every surviving
    identifier is stamped with the time of the cleanup. *)
Theorem cleanup_old_entries_records
    (days now t : Z) (f : save_fault) (rm : bool) (w : world)
    (kv : list (string * json)) (l : list json) (rs : list record)
    (Hdays : - timedelta_max_days ≤ days ≤ timedelta_max_days)
    (Hcut : datetime_min ≤ now - days * day ≤ datetime_max)
    (Hfile : storage_file w = Some (Doc (JObj kv)))
    (Hprs : dict_lookup kv "prs" = Some (JArr l))
    (Hrs : mapM record_of l = Some rs) :
  let w' := exec (cleanup_old_entries days now (SaveEnv t f rm)) w in
  (∀ i, has_seen_pr i w' = true ↔
          Bare i ∈ rs ∨ ∃ ts, Timed i ts ∈ rs ∧ now - ts ≤ days * day) ∧
  (∀ i, durable_timestamps i w' =
          match f with
          | NoFault => if has_seen_pr i w' then [t] else []
          | _ => durable_timestamps i w
          end).
Proof.
  intros w'.
  pose proof (cleanup_old_entries_on_records days now (SaveEnv t f rm) w kv l rs
                Hdays Hcut Hfile Hprs Hrs) as Heq.
  set (valid := list_to_set (omap (kept_by_cleanup (now - days * day)) rs) : gset key) in *.
  assert (Hw' : w' = exec (save_seen_prs (SaveEnv t f rm)) (set_seen valid w)).
  { unfold w', exec. by rewrite Heq. }
  assert (Hseen : seen_prs w' = valid).
  { rewrite Hw'. by rewrite exec_save_seen. }
  split.
  - intros i. unfold has_seen_pr. rewrite bool_decide_eq_true, Hseen.
    unfold valid. rewrite elem_of_list_to_set, list_elem_of_omap. split.
    + intros ([n|j ts] & Hr & Hk); simpl in Hk.
      * left. by injection Hk as ->.
      * right. destruct (Z.leb_spec (now - days * day) ts); [|done].
        injection Hk as ->. exists ts. split; [done|lia].
    + intros [Hb|(ts & Hts & Hage)].
      * by exists (Bare i).
      * exists (Timed i ts). split; [done|]. simpl.
        by destruct (Z.leb_spec (now - days * day) ts); [|lia].
  - intros i. rewrite Hw'. destruct f.
    + rewrite durable_timestamps_after_save.
      unfold has_seen_pr. by rewrite exec_save_seen.
    + unfold exec. by rewrite save_seen_prs_after.
    + unfold exec. by rewrite save_seen_prs_after.
    + unfold exec. by rewrite save_seen_prs_after.
Qed.

Lemma cleanup_old_entries_records_witness :
  let w := set_seen {[KInt 99]} scenario_world in
  let w' := exec (cleanup_old_entries 30 (100 * day)
                    (SaveEnv (100 * day) NoFault false)) w in
  (∀ i, has_seen_pr i w' = true ↔
          Bare i ∈ scenario_records ∨
          ∃ ts, Timed i ts ∈ scenario_records ∧ 100 * day - ts ≤ 30 * day) ∧
  (∀ i, durable_timestamps i w' =
          if has_seen_pr i w' then [100 * day] else []).
Proof.
  apply (cleanup_old_entries_records 30 (100 * day) (100 * day) NoFault false
           (set_seen {[KInt 99]} scenario_world)
           scenario_items scenario_prs scenario_records).
  - vm_compute. split; discriminate.
  - vm_compute. split; discriminate.
  - reflexivity.
  - reflexivity.
  - reflexivity.
Defined.

(** * The monitoring loop *)

Section monitoring_loop.

Context {PR : Type} (pr_id : PR → Z).

Lemma filter_unseen_spec (merged_prs : list (PR * save_env)) :
  ∀ (acc : list PR) (w : world),
  ∃ (new : list PR) (w' : world),
    filter_unseen pr_id merged_prs acc w = (Ok (acc ++ new), w') ∧
    sublist new merged_prs.*1 ∧
    NoDup (pr_id <$> new) ∧
    (∀ i, i ∈ pr_id <$> new ↔
            has_seen_pr i w = false ∧ i ∈ pr_id <$> merged_prs.*1) ∧
    (∀ i, has_seen_pr i w' =
            has_seen_pr i w || bool_decide (i ∈ pr_id <$> merged_prs.*1)).
Proof.
  induction merged_prs as [|[pr e] rest IH]; intros acc w.
  - exists [], w. split_and!.
    + cbn [filter_unseen]. by rewrite app_nil_r.
    + done.
    + constructor.
    + intros i. csimpl. set_solver.
    + intros i. rewrite (bool_decide_eq_false_2 (i ∈ _));
        [by rewrite orb_false_r|]. csimpl. apply not_elem_of_nil.
  - cbn [filter_unseen]. unfold mbind at 1, py_bind, read.
    destruct (has_seen_pr (pr_id pr) w) eqn:Hseen.
    + destruct (IH acc w) as (new & w' & Heq & Hsub & Hnd & Hin & Hafter).
      exists new, w'. split_and!; try done.
      * by apply sublist_cons.
      * intros i. rewrite Hin. csimpl. rewrite elem_of_cons. split.
        -- intros [? ?]. auto.
        -- intros [Hi [->|?]]; [congruence|done].
      * intros i. rewrite Hafter. csimpl.
        destruct (decide (i = pr_id pr)) as [->|Hne].
        -- rewrite Hseen. done.
        -- f_equal. apply bool_decide_ext. rewrite elem_of_cons. naive_solver.
    + unfold mbind, py_bind.
      rewrite mark_pr_as_seen_returns.
      set (w1 := exec (mark_pr_as_seen (pr_id pr) e) w).
      destruct (IH (acc ++ [pr]) w1) as (new & w' & Heq & Hsub & Hnd & Hin & Hafter).
      exists (pr :: new), w'.
      assert (Hw1seen : ∀ i, has_seen_pr i w1 =
                has_seen_pr i w || bool_decide (i = pr_id pr)).
      { intros i. apply has_seen_pr_mark. }
      split_and!.
      * rewrite Heq. by rewrite <- app_assoc.
      * by apply sublist_skip.
      * csimpl. apply NoDup_cons. split; [|done].
        rewrite Hin, Hw1seen. rewrite (bool_decide_eq_true_2 (pr_id pr = pr_id pr)) by done.
        rewrite orb_true_r. by intros [? _].
      * intros i. csimpl. rewrite !elem_of_cons, Hin, Hw1seen. split.
        -- intros [->|[Hi ?]]; [auto|].
           apply orb_false_iff in Hi as [? _]. auto.
        -- intros [Hi [->|?]]; [by left|].
           destruct (decide (i = pr_id pr)) as [->|Hne]; [by left|right].
           rewrite Hi, (bool_decide_eq_false_2 (i = pr_id pr)) by done. done.
      * intros i. rewrite Hafter, Hw1seen. csimpl.
        rewrite <- orb_assoc. f_equal.
        rewrite <- bool_decide_or. apply bool_decide_ext.
        by rewrite elem_of_cons.
Qed.

Lemma filter_unseen_app (l1 l2 : list (PR * save_env)) :
  ∀ (acc : list PR) (w : world),
  filter_unseen pr_id (l1 ++ l2) acc w =
    (a ← filter_unseen pr_id l1 acc; filter_unseen pr_id l2 a) w.
Proof.
  induction l1 as [|[pr e] l1 IH]; intros acc w; [done|].
  cbn [app filter_unseen]. unfold mbind, py_bind, read.
  destruct (has_seen_pr (pr_id pr) w).
  - apply IH.
  - destruct (mark_pr_as_seen (pr_id pr) e w) as [[[]|x] w1]; [|done].
    apply IH.
Qed.

Lemma check_branches_flat (fetched : list (option (list (PR * save_env)))) :
  ∀ (acc : list PR) (w : world),
  check_branches pr_id fetched acc w =
    filter_unseen pr_id (mjoin (omap id fetched)) acc w.
Proof.
  induction fetched as [|[merged|] rest IH]; intros acc w; [done| |apply IH].
  cbn [check_branches]. csimpl. rewrite filter_unseen_app.
  unfold mbind, py_bind.
  destruct (filter_unseen pr_id merged acc w) as [[a|x] w1]; [apply IH|done].
Qed.

Lemma check_branches_spec
    (fetched : list (option (list (PR * save_env)))) (w : world) :
  ∃ (all_new_prs : list PR) (w' : world),
    check_branches pr_id fetched [] w = (Ok all_new_prs, w') ∧
    sublist all_new_prs (mjoin (omap id fetched)).*1 ∧
    NoDup (pr_id <$> all_new_prs) ∧
    (∀ i, i ∈ pr_id <$> all_new_prs ↔
            has_seen_pr i w = false ∧ i ∈ fetched_ids pr_id fetched) ∧
    (∀ i, has_seen_pr i w' =
            has_seen_pr i w || bool_decide (i ∈ fetched_ids pr_id fetched)).
Proof.
  rewrite check_branches_flat.
  destruct (filter_unseen_spec (mjoin (omap id fetched)) [] w)
    as (new & w' & Heq & Hrest).
  exists new, w'. by split.
Qed.

(** X10. One cycle of the monitoring loop returns without raising,
    whatever the saves do.  The pull requests it collects for
    notification are taken from the fetched ones in their order; their
    identifiers are pairwise distinct, also when a pull request is
    fetched for several branches; an identifier is collected exactly when
    it was fetched and not seen before the cycle; and after the cycle
    every fetched identifier is seen.  A branch whose fetch failed
    contributes nothing. *)
Theorem check_branches_collects_new
    (fetched : list (option (list (PR * save_env)))) (w : world) :
  ∃ (all_new_prs : list PR) (w' : world),
    check_branches pr_id fetched [] w = (Ok all_new_prs, w') ∧
    sublist all_new_prs (mjoin (omap id fetched)).*1 ∧
    NoDup (pr_id <$> all_new_prs) ∧
    (∀ i, i ∈ pr_id <$> all_new_prs ↔
            has_seen_pr i w = false ∧ i ∈ fetched_ids pr_id fetched) ∧
    (∀ i, has_seen_pr i w' =
            has_seen_pr i w || bool_decide (i ∈ fetched_ids pr_id fetched)).
Proof.
  rewrite check_branches_flat. unfold fetched_ids.
  destruct (filter_unseen_spec (mjoin (omap id fetched)) [] w)
    as (new & w' & Heq & Hsub & Hnd & Hin & Hafter).
  exists new, w'. split_and!; done.
Qed.

(** X11. Across two consecutive cycles no identifier is collected
    twice: what the second cycle collects was neither fetched nor
    collected in the first, whether or not the saves of the first cycle
    succeeded.  Fetching the same pull requests again collects nothing. *)
Theorem check_branches_never_repeats
    (fetched1 fetched2 : list (option (list (PR * save_env)))) (w : world) :
  ∃ (new1 new2 : list PR) (w1 w2 : world),
    check_branches pr_id fetched1 [] w = (Ok new1, w1) ∧
    check_branches pr_id fetched2 [] w1 = (Ok new2, w2) ∧
    (∀ pr, pr ∈ new2 →
           (pr_id pr ∉ fetched_ids pr_id fetched1) ∧
           (pr_id pr ∉ pr_id <$> new1)) ∧
    (fetched_ids pr_id fetched2 ⊆ fetched_ids pr_id fetched1 → new2 = []).
Proof.
  destruct (check_branches_spec fetched1 w)
    as (new1 & w1 & Heq1 & _ & _ & Hin1 & Hafter1).
  destruct (check_branches_spec fetched2 w1)
    as (new2 & w2 & Heq2 & _ & _ & Hin2 & _).
  exists new1, new2, w1, w2.
  assert (Hnot : ∀ pr, pr ∈ new2 → pr_id pr ∉ fetched_ids pr_id fetched1).
  { intros pr Hpr Hf.
    assert (Hi : pr_id pr ∈ pr_id <$> new2) by (apply list_elem_of_fmap; eauto).
    apply Hin2 in Hi as [Hunseen _].
    rewrite Hafter1, (bool_decide_eq_true_2 _ Hf), orb_true_r in Hunseen. done. }
  split_and!; try done.
  - intros pr Hpr. split; [by apply Hnot|].
    intros Hi. apply Hin1 in Hi as [_ Hi]. by apply (Hnot pr).
  - intros Hsub. destruct new2 as [|pr new2]; [done|].
    exfalso. apply (Hnot pr); [by left|]. apply Hsub.
    apply (Hin2 (pr_id pr)). csimpl. by left.
Qed.

End monitoring_loop.

(** * The embed text and the configuration *)

(** ** _create_pr_embed *)

Lemma length_truncate (limit keep : nat) (s : text) :
  (keep + 3 ≤ limit)%nat → (length (truncate limit keep s) ≤ limit)%nat.
Proof.
  intros Hk. unfold truncate. destruct (decide (limit < length s)%nat).
  - rewrite length_app, length_take.
    change (length (text_of "...")) with 3%nat. lia.
  - lia.
Qed.

Lemma truncate_nonempty (limit keep : nat) (s : text) :
  s ≠ [] → truncate limit keep s ≠ [].
Proof.
  intros Hs. unfold truncate. destruct (decide (limit < length s)%nat); [|done].
  intros Heq. apply (f_equal length) in Heq.
  rewrite length_app in Heq.
  change (length (text_of "...")) with 3%nat in Heq. simpl in Heq. lia.
Qed.

(** X12. The texts [_create_pr_embed] puts in the embed are bounded:
    the title part has at most 256 code points, the body part is never
    empty (a missing or empty body gives the default sentence) and has at
    most 400, and the description field at most 662.  A title of at most
    256 code points is left as it is, and only such a title; a longer one
    keeps its first 253 code points. *)
Theorem embed_texts_bounded (title : text) (body : option text) :
  (length (embed_title title) ≤ 256)%nat ∧
  embed_body body ≠ [] ∧
  (length (embed_body body) ≤ 400)%nat ∧
  (length (embed_description title body) ≤ 662)%nat ∧
  take 253 (embed_title title) = take 253 title ∧
  (embed_title title = title ↔ (length title ≤ 256)%nat).
Proof.
  assert (Ht : (length (embed_title title) ≤ 256)%nat)
    by (apply length_truncate; lia).
  assert (Hb : (length (embed_body body) ≤ 400)%nat)
    by (apply length_truncate; lia).
  split_and!.
  - done.
  - unfold embed_body. apply truncate_nonempty. by destruct body as [[|c b]|].
  - done.
  - unfold embed_description. rewrite !length_app.
    change (length (text_of "**")) with 2%nat. simpl. lia.
  - unfold embed_title, truncate.
    destruct (decide (256 < length title)%nat); [|done].
    rewrite take_app_le by (rewrite length_take; lia).
    rewrite take_take. f_equal.
  - split.
    + intros Heq. rewrite <- Heq. done.
    + intros Hlen. unfold embed_title, truncate.
      destruct (decide (256 < length title)%nat); [lia|done].
Qed.

(** ** Config.validate *)

Lemma validate_passes_iff_no_error (c : Config) :
  validate c = None ↔ validation_errors c = [].
Proof. unfold validate. by destruct (validation_errors c). Qed.

(** X13. [Config.validate] returns normally exactly when the token and
    the webhook URL are non-empty, the repository name contains a slash
    and the polling interval is at least 60; otherwise it raises
    [ValueError].  The test that the repository name is non-empty adds a
    message but never decides: a name with a slash is not empty. *)
Theorem validate_passes_iff (c : Config) :
  validate c = None ↔
    github_token c ≠ [] ∧ discord_webhook_url c ≠ [] ∧
    47%N ∈ github_repo c ∧ 60 ≤ polling_interval c.
Proof.
  rewrite validate_passes_iff_no_error. unfold validation_errors.
  destruct (decide (github_token c = [])) as [Ht|Ht];
    [rewrite (bool_decide_eq_true_2 _ Ht)|rewrite (bool_decide_eq_false_2 _ Ht)];
    simpl; [naive_solver|].
  destruct (decide (github_repo c = [])) as [Hr|Hr];
    [rewrite (bool_decide_eq_true_2 _ Hr)|rewrite (bool_decide_eq_false_2 _ Hr)];
    simpl.
  { split; [done|]. intros (_ & _ & Hin & _). rewrite Hr in Hin.
    by apply elem_of_nil in Hin. }
  destruct (decide (discord_webhook_url c = [])) as [Hu|Hu];
    [rewrite (bool_decide_eq_true_2 _ Hu)|rewrite (bool_decide_eq_false_2 _ Hu)];
    simpl; [naive_solver|].
  destruct (decide (47%N ∈ github_repo c)) as [Hs|Hs];
    [rewrite (bool_decide_eq_true_2 _ Hs)|rewrite (bool_decide_eq_false_2 _ Hs)];
    simpl; [|naive_solver].
  destruct (Z.ltb_spec (polling_interval c) 60); [|done].
  split; [done|]. intros (_ & _ & _ & ?). lia.
Qed.

(** ** Config.target_branches *)

Lemma split_on_cons (sep : N) (s : text) :
  ∃ piece pieces, split_on sep s = piece :: pieces.
Proof.
  destruct s as [|c rest]; simpl; [by eauto|].
  destruct (bool_decide (c = sep)); [by eauto|].
  destruct (split_on sep rest); eauto.
Qed.

Lemma length_split_on (sep : N) (s : text) :
  length (split_on sep s) = S (length (filter (λ c, c = sep) s)).
Proof.
  induction s as [|c rest IH]; [done|].
  rewrite filter_cons. cbn [split_on].
  destruct (decide (c = sep)) as [->|Hne].
  - rewrite bool_decide_eq_true_2 by done. simpl. by rewrite IH.
  - rewrite bool_decide_eq_false_2 by done.
    destruct (split_on_cons sep rest) as (piece & pieces & Heq).
    rewrite Heq in *. simpl in *. done.
Qed.

Lemma split_on_pieces (sep : N) (s : text) :
  Forall (λ piece, sep ∉ piece) (split_on sep s).
Proof.
  induction s as [|c rest IH]; simpl.
  - repeat constructor. apply not_elem_of_nil.
  - destruct (decide (c = sep)) as [->|Hne].
    + rewrite bool_decide_eq_true_2 by done. constructor; [|done].
      apply not_elem_of_nil.
    + rewrite bool_decide_eq_false_2 by done.
      destruct (split_on sep rest) as [|piece pieces].
      * repeat constructor. set_solver.
      * apply Forall_cons in IH as [Hp Hps]. constructor; [|done].
        rewrite not_elem_of_cons. split; [congruence|done].
Qed.

Lemma lstrip_suffix (isspace : N → bool) (s : text) :
  ∃ pre, s = pre ++ lstrip isspace s.
Proof.
  induction s as [|c rest [pre IH]]; simpl; [by exists []|].
  destruct (isspace c).
  - exists (c :: pre). simpl. by rewrite <- IH.
  - by exists [].
Qed.

Lemma lstrip_head (isspace : N → bool) (s : text) (c : N) :
  head (lstrip isspace s) = Some c → isspace c = false.
Proof.
  induction s as [|d rest IH]; simpl; [done|].
  destruct (isspace d) eqn:Hd; [done|]. simpl. by intros [= <-].
Qed.

Lemma strip_last (isspace : N → bool) (s : text) (c : N) :
  last (strip isspace s) = Some c → isspace c = false.
Proof. unfold strip. rewrite last_reverse. apply lstrip_head. Qed.

Lemma strip_head (isspace : N → bool) (s : text) (c : N) :
  head (strip isspace s) = Some c → isspace c = false.
Proof.
  unfold strip.
  destruct (lstrip_suffix isspace (reverse (lstrip isspace s))) as [pre Hpre].
  set (u := lstrip isspace (reverse (lstrip isspace s))) in *.
  apply (f_equal reverse) in Hpre.
  rewrite reverse_involutive, reverse_app in Hpre.
  intros Hc. apply (lstrip_head isspace s). rewrite Hpre.
  destruct (reverse u); [done|]. done.
Qed.

Lemma strip_subseteq (isspace : N → bool) (s : text) (c : N) :
  c ∈ strip isspace s → c ∈ s.
Proof.
  unfold strip. rewrite elem_of_reverse.
  destruct (lstrip_suffix isspace (reverse (lstrip isspace s))) as [pre Hpre].
  destruct (lstrip_suffix isspace s) as [pre' Hpre'].
  intros Hc.
  assert (c ∈ reverse (lstrip isspace s)) as Hc'
    by (rewrite Hpre; apply elem_of_app; by right).
  rewrite elem_of_reverse in Hc'.
  assert (c ∈ pre' ++ lstrip isspace s) as Hin by (apply elem_of_app; by right).
  by rewrite <- Hpre' in Hin.
Qed.

(** X14. [target_branches] is never empty, whatever the environment
    holds, the empty string included: there is one branch more than
    there are commas in the setting, so [target_branch] is always the
    first branch and its ['staging'] alternative is never taken.  No
    branch name contains a comma, and none begins or ends with a code
    point that [strip] removes. *)
Theorem target_branches_shape (isspace : N → bool)
    (env_target_branches env_target_branch : option text) :
  let setting :=
    default (default (text_of "staging") env_target_branch) env_target_branches in
  let branches := target_branches isspace env_target_branches env_target_branch in
  length branches = S (length (filter (λ c, c = 44%N) setting)) ∧
  head branches = Some (target_branch branches) ∧
  Forall (λ branch,
            (44%N ∉ branch) ∧
            (∀ c, head branch = Some c → isspace c = false) ∧
            (∀ c, last branch = Some c → isspace c = false)) branches.
Proof.
  intros setting branches. unfold branches, target_branches. fold setting.
  split_and!.
  - by rewrite length_fmap, length_split_on.
  - destruct (split_on_cons 44 setting) as (piece & pieces & ->). done.
  - apply Forall_fmap. eapply Forall_impl; [apply split_on_pieces|].
    intros piece Hp. simpl. split_and!.
    + intros Hc. by apply strip_subseteq in Hc.
    + apply strip_head.
    + apply strip_last.
Qed.
